(** * StaticBlocks: the template engine and the locale prefix

    A shallow embedding of the class [TemplateEngine] (template-engine.ts),
    of [getNestedValue] (utils/index.ts) and of [Builder.getLangPrefix]
    (builder.ts).

    Modelling conventions.
    - A JavaScript string is a [string]: a sequence of code units, taken in the
      range 0..255.  White space ([\s], [trim]) is therefore TAB, LF, VT, FF,
      CR, SP and NBSP.
    - A JavaScript value is a [value]: undefined, null, booleans, integer
      numbers, strings, arrays and plain objects.  An object is the list of
      its own properties in enumeration order; the first binding of a key is
      the one a lookup sees.  Property lookup sees own properties only
      (array and string indices and [length] included); what JavaScript
      would find on a built-in prototype is not modelled.
    - [console.warn] and [console.error] are a log: every function that may
      write to the console returns the lines it wrote next to its result.
    - A regular expression is a [regex] term run by a backtracking matcher
      that lists the ways to match in the order JavaScript tries them.
    - Recursion that is not structural in the source ([render] through loop
      bodies, the [while] of [processConditionals]) takes fuel and returns
      [None] when it runs out. *)

From Stdlib Require Import String Ascii List ZArith Lia Bool DecimalString.
From stdpp Require Import gmap strings.
Import ListNotations.

Set Warnings "-register-all".

(** ** JavaScript strings and values *)

Module JS.

(** [\s] of a regular expression and the characters [trim] removes. *)
Definition is_space (c : ascii) : bool :=
  let n := nat_of_ascii c in
  ((9 <=? n) && (n <=? 13)) || (n =? 32) || (n =? 160).

Fixpoint drop (n : nat) (s : string) : string :=
  match n, s with
  | S k, String _ s' => drop k s'
  | _, _ => s
  end.

Fixpoint take (n : nat) (s : string) : string :=
  match n, s with
  | S k, String c s' => String c (take k s')
  | _, _ => ""
  end.

(** [s.startsWith(p)] *)
Fixpoint startsWith (s p : string) : bool :=
  match p, s with
  | "", _ => true
  | String a p', String b s' => Ascii.eqb a b && startsWith s' p'
  | String _ _, "" => false
  end.

(** [s.endsWith(p)] *)
Definition endsWith (s p : string) : bool :=
  (String.length p <=? String.length s)
  && String.eqb (drop (String.length s - String.length p) s) p.

(** [s.slice(1)] and [s.slice(0, -1)] *)
Definition slice_from_1 (s : string) : string := drop 1 s.
Definition slice_0_minus_1 (s : string) : string := take (String.length s - 1) s.

Fixpoint trimStart (s : string) : string :=
  match s with
  | String c s' => if is_space c then trimStart s' else s
  | "" => ""
  end.

Fixpoint trimEnd (s : string) : string :=
  match s with
  | "" => ""
  | String c s' =>
      match trimEnd s' with
      | "" => if is_space c then "" else String c ""
      | r => String c r
      end
  end.

(** [s.trim()] *)
Definition trim (s : string) : string := trimEnd (trimStart s).

(** [s.split(sep)] for a one-character separator: never the empty list. *)
Fixpoint split (sep : ascii) (s : string) : list string :=
  match s with
  | "" => [""]
  | String c s' =>
      if Ascii.eqb c sep then "" :: split sep s'
      else match split sep s' with
           | h :: t => String c h :: t
           | [] => [String c ""]
           end
  end.

(** [l.join(sep)] *)
Definition join (sep : string) (l : list string) : string := String.concat sep l.

(** [s.toLowerCase()] on code units below 256: A-Z and the capital letters
    of Latin-1 (U+00C0..U+00DE but the multiplication sign U+00D7). *)
Definition lower_char (c : ascii) : ascii :=
  let n := nat_of_ascii c in
  if ((65 <=? n) && (n <=? 90))
     || ((192 <=? n) && (n <=? 222) && negb (n =? 215))
  then ascii_of_nat (n + 32) else c.

Fixpoint toLowerCase (s : string) : string :=
  match s with
  | "" => ""
  | String c s' => String (lower_char c) (toLowerCase s')
  end.

(** Every occurrence of the character [c] replaced by [by_]:
    [s.replace(/c/g, by_)]. *)
Fixpoint replace_char (c : ascii) (by_ : string) (s : string) : string :=
  match s with
  | "" => ""
  | String a s' =>
      if Ascii.eqb a c then by_ +:+ replace_char c by_ s'
      else String a (replace_char c by_ s')
  end.

(** Every occurrence, from the left and without overlap, of the doubled
    character [c] replaced by [by_]: [s.replace(/cc/g, by_)]. *)
Fixpoint replace_pair (c : ascii) (by_ : string) (s : string) : string :=
  match s with
  | String a (String b s' as t) =>
      if Ascii.eqb a c && Ascii.eqb b c
      then by_ +:+ (fix skip (u : string) : string :=
                      match u with
                      | "" => ""
                      | String _ u' => replace_pair c by_ u'
                      end) t
      else String a (replace_pair c by_ t)
  | _ => s
  end.

(** Decimal writing of an integer number. *)
Definition string_of_Z (n : Z) : string := NilZero.string_of_int (Z.to_int n).

Inductive value : Type :=
| VUndefined
| VNull
| VBool (b : bool)
| VNum (n : Z)
| VStr (s : string)
| VArr (items : list value)
| VObj (props : list (string * value)).

(** [Boolean(v)] *)
Definition truthy (v : value) : bool :=
  match v with
  | VUndefined | VNull => false
  | VBool b => b
  | VNum n => negb (n =? 0)%Z
  | VStr s => negb (String.eqb s "")
  | VArr _ | VObj _ => true
  end.

(** [a || b] *)
Definition or_else (a b : value) : value := if truthy a then a else b.

(** [Array.isArray(v)] *)
Definition isArray (v : value) : bool :=
  match v with VArr _ => true | _ => false end.

(** [String(v)], which is also what a template literal and [replace] do to
    a value that is not a string. *)
Fixpoint toString (v : value) : string :=
  match v with
  | VUndefined => "undefined"
  | VNull => "null"
  | VBool true => "true"
  | VBool false => "false"
  | VNum n => string_of_Z n
  | VStr s => s
  | VArr items =>
      join "," (map (fun x => match x with
                              | VUndefined | VNull => ""
                              | _ => toString x
                              end) items)
  | VObj _ => "[object Object]"
  end.

Fixpoint assoc (k : string) (props : list (string * value)) : value :=
  match props with
  | [] => VUndefined
  | (k', v) :: rest => if String.eqb k k' then v else assoc k rest
  end.

(** The array index a property key denotes, when it is the canonical
    decimal writing of one. *)
Definition index_of_key (k : string) : option nat :=
  match NilZero.uint_of_string k with
  | Some u =>
      let n := Nat.of_uint u in
      if String.eqb (NilZero.string_of_uint (Nat.to_uint n)) k then Some n else None
  | None => None
  end.

(** [v[k]] for a value that is neither undefined nor null. *)
Definition get (v : value) (k : string) : value :=
  match v with
  | VObj props => assoc k props
  | VArr items =>
      if String.eqb k "length" then VNum (Z.of_nat (length items))
      else match index_of_key k with
           | Some i => nth i items VUndefined
           | None => VUndefined
           end
  | VStr s =>
      if String.eqb k "length" then VNum (Z.of_nat (String.length s))
      else match index_of_key k with
           | Some i => match String.get i s with
                       | Some c => VStr (String c "")
                       | None => VUndefined
                       end
           | None => VUndefined
           end
  | _ => VUndefined
  end.

(** [v?.[k]] *)
Definition optGet (v : value) (k : string) : value :=
  match v with
  | VUndefined | VNull => VUndefined
  | _ => get v k
  end.

(** The own enumerable properties a spread [...v] copies. *)
Fixpoint indexed {A : Type} (i : nat) (l : list A) : list (nat * A) :=
  match l with
  | [] => []
  | x :: l' => (i, x) :: indexed (S i) l'
  end.

Definition key_of_index (i : nat) : string := NilZero.string_of_uint (Nat.to_uint i).

Definition spread (v : value) : list (string * value) :=
  match v with
  | VObj props => props
  | VArr items => map (fun '(i, x) => (key_of_index i, x)) (indexed 0 items)
  | VStr s =>
      map (fun '(i, c) => (key_of_index i, VStr (String c "")))
          (indexed 0 (list_ascii_of_string s))
  | _ => []
  end.

(** What a function call yields: a value, or a thrown error. *)
Inductive result (A : Type) : Type :=
| Ok (a : A)
| Throw (error : string).
Arguments Ok {A} a.
Arguments Throw {A} error.

Definition bind {A B : Type} (r : result A) (f : A -> result B) : result B :=
  match r with
  | Ok a => f a
  | Throw e => Throw e
  end.

(** [v.k]: reading a property of undefined or null throws. *)
Definition member (v : value) (k : string) : result value :=
  match v with
  | VUndefined | VNull => Throw "TypeError"
  | _ => Ok (get v k)
  end.

(** The receiver of a String method call ([v.startsWith], [v.toLowerCase],
    [v.split]): on anything but a string the call throws. *)
Definition as_string (v : value) : result string :=
  match v with
  | VStr s => Ok s
  | _ => Throw "TypeError"
  end.

(** ** [JSON.stringify] *)

Definition dquote : string := String (ascii_of_nat 34) "".

Definition hex_digit (n : nat) : ascii :=
  match String.get n "0123456789abcdef" with
  | Some c => c
  | None => "0"%char
  end.

Definition json_char (c : ascii) : string :=
  let n := nat_of_ascii c in
  if n =? 34 then "\" +:+ dquote
  else if n =? 92 then "\\"
  else if n =? 8 then "\b"
  else if n =? 12 then "\f"
  else if n =? 10 then "\n"
  else if n =? 13 then "\r"
  else if n =? 9 then "\t"
  else if n <? 32 then "\u00" +:+ String (hex_digit (n / 16)) (String (hex_digit (n mod 16)) "")
  else String c "".

Fixpoint json_chars (s : string) : string :=
  match s with
  | "" => ""
  | String c s' => json_char c +:+ json_chars s'
  end.

Definition json_quote (s : string) : string := dquote +:+ json_chars s +:+ dquote.

(** [JSON.stringify(v)]: [None] is the undefined it returns for undefined.
    An undefined array element is written null, an undefined property is
    left out. *)
Fixpoint stringify (v : value) : option string :=
  match v with
  | VUndefined => None
  | VNull => Some "null"
  | VBool true => Some "true"
  | VBool false => Some "false"
  | VNum n => Some (string_of_Z n)
  | VStr s => Some (json_quote s)
  | VArr items =>
      Some ("[" +:+ join "," (map (fun x => match stringify x with
                                            | Some t => t
                                            | None => "null"
                                            end) items) +:+ "]")
  | VObj props =>
      Some ("{" +:+ join "," (flat_map (fun '(k, x) =>
                                          match stringify x with
                                          | Some t => [json_quote k +:+ ":" +:+ t]
                                          | None => []
                                          end) props) +:+ "}")
  end.

End JS.

Import JS.

(** ** Regular expressions

    The fragment the engine's four patterns are written in.  A character
    class is a predicate on code units; every class of the source stands
    under a quantifier. *)

Module Regex.

Inductive regex : Type :=
| Lit (s : string)                 (* the characters of [s], one after the other *)
| Plus (cls : ascii -> bool)       (* [[cls]+], greedy *)
| StarLazy (cls : ascii -> bool)   (* [[cls]*?], lazy *)
| Group (n : nat) (r : regex)      (* capturing group number [n] *)
| Opt (r : regex)                  (* [(?:r)?], greedy *)
| Seq (r1 r2 : regex).

(** The groups that took part in a match, latest binding first. *)
Definition captures : Type := list (nat * string).

Fixpoint capture (n : nat) (caps : captures) : option string :=
  match caps with
  | [] => None
  | (k, s) :: rest => if n =? k then Some s else capture n rest
  end.

(** The text of group [n] as the callback of [replace] receives it when the
    group took part; [""] stands for a group that did not. *)
Definition group (n : nat) (caps : captures) : string :=
  match capture n caps with
  | Some s => s
  | None => ""
  end.

(** What is left of [s] after a run of [cls] characters: every length of
    run, the longest first. *)
Fixpoint greedy (cls : ascii -> bool) (s : string) : list string :=
  match s with
  | String c s' => if cls c then greedy cls s' ++ [s] else [s]
  | "" => [""]
  end.

(** The same, the shortest run first. *)
Fixpoint lazy (cls : ascii -> bool) (s : string) : list string :=
  match s with
  | String c s' => s :: (if cls c then lazy cls s' else [])
  | "" => [""]
  end.

(** All the ways [r] matches a prefix of [s], in the order a backtracking
    matcher tries them: what is left of [s] and the captures so far. *)
Fixpoint rmatch (r : regex) (s : string) (caps : captures) : list (string * captures) :=
  match r with
  | Lit l => if startsWith s l then [(drop (String.length l) s, caps)] else []
  | Plus cls =>
      match s with
      | String c s' => if cls c then map (fun t => (t, caps)) (greedy cls s') else []
      | "" => []
      end
  | StarLazy cls => map (fun t => (t, caps)) (lazy cls s)
  | Group n r' =>
      map (fun '(t, c) => (t, (n, take (String.length s - String.length t) s) :: c))
          (rmatch r' s caps)
  | Opt r' => rmatch r' s caps ++ [(s, caps)]
  | Seq r1 r2 => flat_map (fun '(t, c) => rmatch r2 t c) (rmatch r1 s caps)
  end.

(** The match that starts at the first character of [s], if there is one. *)
Definition exec (r : regex) (s : string) : option (string * captures) :=
  hd_error (rmatch r s []).

(** [r.test(s)] with [lastIndex] 0: is there a match anywhere in [s]. *)
Fixpoint test (r : regex) (s : string) : bool :=
  match exec r s with
  | Some _ => true
  | None => match s with
            | "" => false
            | String _ s' => test r s'
            end
  end.

(** [s.replace(r, callback)] for a global [r] cuts [s] into the matches, found
    from the left and without overlap, and the characters between them. *)
Inductive segment : Type :=
| Text (c : ascii)
| Match (m : string) (caps : captures).

(** [skip] counts the characters of the current match still to pass.  After
    an empty match the next character is copied and the search resumes
    behind it. *)
Fixpoint scan (r : regex) (skip : nat) (s : string) : list segment :=
  match skip with
  | S k => match s with
           | "" => []
           | String _ s' => scan r k s'
           end
  | 0 =>
      match exec r s with
      | Some (rest, caps) =>
          let len := String.length s - String.length rest in
          Match (take len s) caps ::
            match s with
            | "" => []
            | String c s' =>
                match len with
                | 0 => Text c :: scan r 0 s'
                | S k => scan r k s'
                end
            end
      | None =>
          match s with
          | "" => []
          | String c s' => Text c :: scan r 0 s'
          end
      end
  end.

(** [s.replace(r, callback)] with a callback that has no effect. *)
Fixpoint glue (callback : string -> captures -> string) (segs : list segment) : string :=
  match segs with
  | [] => ""
  | Text c :: rest => String c (glue callback rest)
  | Match m caps :: rest => callback m caps +:+ glue callback rest
  end.

Definition replace (r : regex) (callback : string -> captures -> string) (s : string) : string :=
  glue callback (scan r 0 s).

Infix ">>" := Seq (at level 60, right associativity).

End Regex.

Import Regex.

(** ** [getNestedValue]

    [path.split('.').reduce((current, key) => current?.[key], obj)] *)

Definition getNestedValue (obj : value) (path : string) : value :=
  fold_left optGet (split "." path) obj.

(** ** The console *)

Inductive diagnostic : Type :=
| Warn (message : string)                   (* [console.warn(message)] *)
| Error (message : string) (error : string). (* [console.error(message, error)] *)

(** A computation that may write to the console, and that returns [None]
    when its fuel runs out. *)
Definition M (A : Type) : Type := option (A * list diagnostic).

Definition ret {A : Type} (a : A) : M A := Some (a, []).

Definition bindM {A B : Type} (m : M A) (f : A -> M B) : M B :=
  match m with
  | None => None
  | Some (a, log1) =>
      match f a with
      | None => None
      | Some (b, log2) => Some (b, log1 ++ log2)
      end
  end.

Notation "x <- m ;; k" := (bindM m (fun x => k))
  (at level 100, m at next level, right associativity).

Definition lift {A : Type} (o : option A) : M A :=
  match o with
  | Some a => ret a
  | None => None
  end.

(** [l.map(f)] for an [f] that may write to the console. *)
Fixpoint mapM {A B : Type} (f : A -> M B) (l : list A) : M (list B) :=
  match l with
  | [] => ret []
  | x :: l' => y <- f x ;; ys <- mapM f l' ;; ret (y :: ys)
  end.

(** [s.replace(r, callback)] for a callback that may write to the console:
    the callback runs once per match, from the left. *)
Fixpoint glueM (callback : string -> captures -> M string) (segs : list segment) : M string :=
  match segs with
  | [] => ret ""
  | Text c :: rest => out <- glueM callback rest ;; ret (String c out)
  | Match m caps :: rest =>
      r <- callback m caps ;; out <- glueM callback rest ;; ret (r +:+ out)
  end.

Definition replaceM (r : regex) (callback : string -> captures -> M string) (s : string) : M string :=
  glueM callback (scan r 0 s).

(** ** The helper table *)

(** A helper is a function of the context and of the raw arguments.  [HCall]
    is a helper written [(context, key) => this.helpers.target(context, key)]:
    it finds its target in the table when it runs. *)
Inductive TemplateHelper : Type :=
| HFun (fn : value -> list string -> result value)
| HCall (target : string).

Definition TemplateHelpers : Type := gmap string TemplateHelper.

Definition registerHelper (name : string) (fn : TemplateHelper) (helpers : TemplateHelpers)
  : TemplateHelpers :=
  <[name := fn]> helpers.

(** The [n]-th argument of a call: undefined when the call has fewer. *)
Definition arg (n : nat) (args : list string) : value :=
  match nth_error args n with
  | Some s => VStr s
  | None => VUndefined
  end.

(** Running a helper.  A chain of [HCall] longer than the table has entries
    is a cycle: JavaScript then throws a RangeError for the stack. *)
Fixpoint call (fuel : nat) (helpers : TemplateHelpers) (helper : TemplateHelper)
    (context : value) (args : list string) : result value :=
  match helper with
  | HFun fn => fn context args
  | HCall target =>
      match fuel with
      | 0 => Throw "RangeError"
      | S n =>
          match helpers !! target with
          | Some h => call n helpers h context (firstn 1 args)
          | None => Throw "TypeError"
          end
      end
  end.

Definition invoke (helpers : TemplateHelpers) (helper : TemplateHelper)
    (context : value) (args : list string) : result value :=
  call (size helpers) helpers helper context args.

(** ** The patterns *)

Definition any : ascii -> bool := fun _ => true.                      (* [[\s\S]] *)
Definition not_brace : ascii -> bool := fun c => negb (Ascii.eqb c "}"). (* [[^}]] *)

(** [[a-zA-Z0-9_]] *)
Definition word (c : ascii) : bool :=
  let n := nat_of_ascii c in
  ((97 <=? n) && (n <=? 122)) || ((65 <=? n) && (n <=? 90))
  || ((48 <=? n) && (n <=? 57)) || (n =? 95).

(** [[a-zA-Z0-9_.]] *)
Definition word_dot (c : ascii) : bool := word c || Ascii.eqb c ".".

(** [/\{\{#if\s+([^}]+)\}\}([\s\S]*?)(?:\{\{#else\}\}([\s\S]*?))?\{\{\/if\}\}/g] *)
Definition ifRegex : regex :=
  Lit "{{#if" >> Plus is_space >> Group 1 (Plus not_brace) >> Lit "}}"
  >> Group 2 (StarLazy any)
  >> Opt (Lit "{{#else}}" >> Group 3 (StarLazy any))
  >> Lit "{{/if}}".

(** [/\{\{#each\s+([^}]+)\}\}([\s\S]*?)\{\{\/each\}\}/g] *)
Definition eachRegex : regex :=
  Lit "{{#each" >> Plus is_space >> Group 1 (Plus not_brace) >> Lit "}}"
  >> Group 2 (StarLazy any) >> Lit "{{/each}}".

(** [/\{\{([a-zA-Z0-9_]+):([^}]+)\}\}/g] *)
Definition helperRegex : regex :=
  Lit "{{" >> Group 1 (Plus word) >> Lit ":" >> Group 2 (Plus not_brace) >> Lit "}}".

(** [/\{\{([a-zA-Z0-9_.]+)\}\}/g] *)
Definition varRegex : regex :=
  Lit "{{" >> Group 1 (Plus word_dot) >> Lit "}}".

(** ** [TemplateEngine] *)

(** [evaluateCondition]: the match on the first character is
    [condition.startsWith('!')], its rest is [condition.slice(1)]. *)
Fixpoint evaluateCondition (condition : string) (context : value) : bool :=
  match condition with
  | String "!" rest => negb (evaluateCondition rest context)
  | _ =>
      let value := getNestedValue context condition in
      match value with
      | VArr items => 0 <? length items
      | _ => truthy value
      end
  end.

(** The callback of [processConditionals]; [falseBranch] is [''] when
    group 3 took no part. *)
Definition ifCallback (context : value) (_ : string) (caps : captures) : string :=
  let condition := group 1 caps in
  let trueBranch := group 2 caps in
  let falseBranch := group 3 caps in
  if evaluateCondition (trim condition) context then trueBranch else falseBranch.

(** The [while] of [processConditionals].  [replace] leaves [lastIndex] at 0,
    so [ifRegex.test] always searches from the start. *)
Fixpoint conditionalsLoop (fuel : nat) (output previousOutput : string) (context : value)
  : option string :=
  if negb (String.eqb output previousOutput) && test ifRegex output then
    match fuel with
    | 0 => None
    | S n => conditionalsLoop n (replace ifRegex (ifCallback context) output) output context
    end
  else Some output.

Definition processConditionals (template : string) (context : value) : option string :=
  conditionalsLoop (S (String.length template)) template "" context.

(** [{...context, ...item, '@index': index, '@first': ..., '@last': ...}] *)
Definition loopContext (context item : value) (index len : nat) : value :=
  VObj (("@index", VNum (Z.of_nat index))
        :: ("@first", VBool (index =? 0))
        :: ("@last", VBool (Z.of_nat index =? Z.of_nat len - 1)%Z)
        :: spread item ++ spread context).

(** The callback of [processLoops], over the [render] it calls on the body. *)
Definition eachCallback (render : string -> value -> M string) (context : value)
    (_ : string) (caps : captures) : M string :=
  let variable := group 1 caps in
  let loopContent := group 2 caps in
  let items := getNestedValue context (trim variable) in
  match items with
  | VArr l =>
      parts <- mapM (fun '(index, item) =>
                       render loopContent (loopContext context item index (length l)))
                    (indexed 0 l) ;;
      ret (join "" parts)
  | _ => ret ""
  end.

Definition processLoops (render : string -> value -> M string)
    (template : string) (context : value) : M string :=
  replaceM eachRegex (eachCallback render context) template.

(** The callback of [processHelpers]. *)
Definition helperCallback (helpers : TemplateHelpers) (context : value)
    (matched : string) (caps : captures) : M string :=
  let helperName := group 1 caps in
  let args := group 2 caps in
  match helpers !! helperName with
  | None => Some (matched, [Warn ("Helper not found: " +:+ helperName)])
  | Some helper =>
      let argList := map trim (split "," args) in
      match invoke helpers helper context argList with
      | Ok v => ret (toString v)
      | Throw error => Some (matched, [Error ("Error in helper " +:+ helperName +:+ ":") error])
      end
  end.

Definition processHelpers (helpers : TemplateHelpers) (template : string) (context : value)
  : M string :=
  replaceM helperRegex (helperCallback helpers context) template.

Definition varCallback (context : value) (_ : string) (caps : captures) : string :=
  let variable := group 1 caps in
  let value := getNestedValue context (trim variable) in
  match value with
  | VUndefined | VNull => ""
  | _ => toString value
  end.

Definition processVariables (template : string) (context : value) : string :=
  replace varRegex (varCallback context) template.

(** [render]: the four stages in order; the loop stage calls [render] on
    the loop bodies. *)
Fixpoint render_fuel (fuel : nat) (helpers : TemplateHelpers) (template : string)
    (context : value) : M string :=
  match fuel with
  | 0 => None
  | S n =>
      output <- lift (processConditionals template context) ;;
      output <- processLoops (render_fuel n helpers) output context ;;
      output <- processHelpers helpers output context ;;
      ret (processVariables output context)
  end.

(** A loop body is shorter than the template it stands in, so the length of
    the template bounds the depth of the calls. *)
Definition render (helpers : TemplateHelpers) (template : string) (context : value)
  : M string :=
  render_fuel (S (String.length template)) helpers template context.

(** ** The helpers of [registerDefaultHelpers] *)

Notation "x <~ r ; k" := (JS.bind r (fun x => k))
  (at level 100, r at next level, right associativity).

(** [context.currentLang || context.config.i18n?.defaultLocale || 'de']:
    [context.config] is read only when [context.currentLang] is falsy. *)
Definition currentLang_of (context : value) : result value :=
  lang <~ member context "currentLang" ;
  if truthy lang then Ok lang
  else
    config <~ member context "config" ;
    i18n <~ member config "i18n" ;
    Ok (or_else (optGet i18n "defaultLocale") (VStr "de")).

Definition translate_helper (context : value) (args : list string) : result value :=
  let key := arg 0 args in
  localeData <~ member context "localeData" ;
  if negb (truthy localeData) then Ok key
  else
    path <~ as_string key ;
    let translation := getNestedValue localeData path in
    Ok (or_else translation key).

Definition currentLang_helper (context : value) (_ : list string) : result value :=
  currentLang_of context.

Definition langPrefix_helper (context : value) (_ : list string) : result value :=
  prefix <~ member context "langPrefix" ;
  Ok (or_else prefix (VStr "")).

Definition active_helper (context : value) (args : list string) : result value :=
  let path := arg 0 args in
  let customClasses := arg 1 args in
  activeNav <~ member context "activeNav" ;
  nav <~ (if truthy activeNav then Ok activeNav else member context "slug") ;
  let currentPath := "/" +:+ toString nav in
  path <~ as_string path ;
  let normalizedPath := if endsWith path "/" then path else path +:+ "/" in
  let normalizedCurrent :=
    if endsWith currentPath "/" then currentPath else currentPath +:+ "/" in
  let isActive :=
    String.eqb normalizedCurrent normalizedPath
    || (String.eqb normalizedPath "/" && String.eqb normalizedCurrent "/") in
  if isActive then Ok (or_else customClasses (VStr "active")) else Ok (VStr "").

Definition langActive_helper (context : value) (args : list string) : result value :=
  let lang := arg 0 args in
  let customClasses := arg 1 args in
  currentLang <~ currentLang_of context ;
  current <~ as_string currentLang ;
  lang <~ as_string lang ;
  let isActive := String.eqb (toLowerCase current) (toLowerCase lang) in
  if isActive then Ok (or_else customClasses (VStr "active")) else Ok (VStr "").

Definition icon_helper (context : value) (args : list string) : result value :=
  let name := toString (arg 0 args) in
  let classes := skipn 1 args in
  config <~ member context "config" ;
  iconLib <~ member config "icons" ;
  match iconLib with
  | VStr "lucide" =>
      let classStr :=
        if 0 <? length classes then " class=" +:+ dquote +:+ join " " classes +:+ dquote
        else "" in
      Ok (VStr ("<i data-lucide=" +:+ dquote +:+ name +:+ dquote +:+ classStr +:+ "></i>"))
  | _ =>
      let classStr := if 0 <? length classes then " " +:+ join " " classes else "" in
      Ok (VStr ("<i class=" +:+ dquote +:+ "fa fa-" +:+ name +:+ classStr +:+ dquote +:+ "></i>"))
  end.

Definition url_helper (context : value) (args : list string) : result value :=
  let path := arg 0 args in
  baseUrl <~ member context "baseUrl" ;
  let baseUrl := or_else baseUrl (VStr "") in
  prefix <~ member context "langPrefix" ;
  let prefix := or_else prefix (VStr "") in
  path <~ as_string path ;
  let normalizedPath := if startsWith path "/" then path else "/" +:+ path in
  let normalizedPath :=
    if negb (String.eqb normalizedPath "/") && endsWith normalizedPath "/"
    then slice_0_minus_1 normalizedPath else normalizedPath in
  Ok (VStr (toString baseUrl +:+ toString prefix +:+ normalizedPath)).

Definition asset_helper (context : value) (args : list string) : result value :=
  let path := arg 0 args in
  baseUrl <~ member context "baseUrl" ;
  let baseUrl := or_else baseUrl (VStr "") in
  path <~ as_string path ;
  let normalizedPath := if startsWith path "/" then path else "/" +:+ path in
  Ok (VStr (toString baseUrl +:+ normalizedPath)).

(** [new Date().getFullYear().toString()]: the clock is the parameter
    [year]. *)
Definition year_helper (year : Z) (_ : value) (_ : list string) : result value :=
  Ok (VStr (string_of_Z year)).

(** [typeof data === 'string' ? getNestedValue(context, data) : data] *)
Definition resolve_arg (context : value) (data : value) : value :=
  match data with
  | VStr path => getNestedValue context path
  | _ => data
  end.

Definition json_helper (context : value) (args : list string) : result value :=
  let value := resolve_arg context (arg 0 args) in
  match stringify value with
  | Some text => Ok (VStr text)
  | None => Ok VUndefined
  end.

Definition escape_helper (context : value) (args : list string) : result value :=
  let value := resolve_arg context (arg 0 args) in
  match value with
  | VStr text =>
      Ok (VStr (replace_pair "}" "&#125;&#125;"
               (replace_pair "{" "&#123;&#123;"
               (replace_char "'" "&#39;"
               (replace_char (ascii_of_nat 34) "&quot;"
               (replace_char ">" "&gt;"
               (replace_char "<" "&lt;"
               (replace_char "&" "&amp;" text))))))))
  | _ => Ok (VStr "")
  end.

Definition registerDefaultHelpers (year : Z) (helpers : TemplateHelpers) : TemplateHelpers :=
  let helpers := registerHelper "translate" (HFun translate_helper) helpers in
  let helpers := registerHelper "t" (HCall "translate") helpers in
  let helpers := registerHelper "currentLang" (HFun currentLang_helper) helpers in
  let helpers := registerHelper "langPrefix" (HFun langPrefix_helper) helpers in
  let helpers := registerHelper "active" (HFun active_helper) helpers in
  let helpers := registerHelper "langActive" (HFun langActive_helper) helpers in
  let helpers := registerHelper "icon" (HFun icon_helper) helpers in
  let helpers := registerHelper "url" (HFun url_helper) helpers in
  let helpers := registerHelper "asset" (HFun asset_helper) helpers in
  let helpers := registerHelper "year" (HFun (year_helper year)) helpers in
  let helpers := registerHelper "json" (HFun json_helper) helpers in
  registerHelper "escape" (HFun escape_helper) helpers.

(** [new TemplateEngine()]: an empty table, then the default helpers. *)
Definition defaultHelpers (year : Z) : TemplateHelpers := registerDefaultHelpers year ∅.

(** ** [Builder.getLangPrefix] *)

Module Builder.

Inductive Strategy : Type := prefix | prefix_except_default.

Definition Strategy_eqb (a b : Strategy) : bool :=
  match a, b with
  | prefix, prefix | prefix_except_default, prefix_except_default => true
  | _, _ => false
  end.

Record I18nConfig : Type := {
  defaultLocale : string;
  locales : list string;
  strategy : option Strategy   (* [None]: no strategy written in the config *)
}.

(** Of [ProjectConfig], the field the prefix depends on. *)
Record ProjectConfig : Type := {
  i18n : option I18nConfig
}.

Definition getLangPrefix (config : ProjectConfig) (locale defaultLocale : string) : string :=
  match i18n config with
  | None => ""
  | Some i18n =>
      let strategy :=
        match strategy i18n with
        | Some s => s
        | None => prefix_except_default
        end in
      if Strategy_eqb strategy prefix_except_default && String.eqb locale defaultLocale
      then ""
      else "/" +:+ locale
  end.

End Builder.

(** ** Vocabulary of the statements *)

(** [s.includes(sub)] *)
Fixpoint includes (s sub : string) : bool :=
  startsWith s sub
  || match s with
     | "" => false
     | String _ s' => includes s' sub
     end.

(** Does the character [a] occur in [s]. *)
Fixpoint occurs (a : ascii) (s : string) : bool :=
  match s with
  | "" => false
  | String c s' => Ascii.eqb c a || occurs a s'
  end.

(** Is [k] an own property of the object [props] lists. *)
Definition has_key (k : string) (props : list (string * value)) : bool :=
  existsb (fun '(k', _) => String.eqb k k') props.

(** The segments of a text no match was found in. *)
Fixpoint texts (s : string) : list segment :=
  match s with
  | "" => []
  | String c s' => Text c :: texts s'
  end.

(** Are all the characters of [s] in the class [cls]. *)
Fixpoint every (cls : ascii -> bool) (s : string) : bool :=
  match s with
  | "" => true
  | String c s' => cls c && every cls s'
  end.

(** Does a run of [cls] characters end where [s] begins. *)
Definition stops (cls : ascii -> bool) (s : string) : bool :=
  match s with
  | "" => true
  | String c _ => negb (cls c)
  end.

(** [a] less and less of its first characters, each time before [b]: what a
    greedy run over [a] gives back when the matcher backtracks. *)
Fixpoint backtracks (a b : string) : list string :=
  match a with
  | "" => []
  | String c a' => backtracks a' b ++ [String c a' +:+ b]
  end.

(** The contexts of [template-engine.test.ts]. *)
Definition i18n_config (strategy : string) : value :=
  VObj [("i18n", VObj [("defaultLocale", VStr "en");
                       ("locales", VArr [VStr "en"; VStr "de"; VStr "fr"]);
                       ("strategy", VStr strategy)])].

Definition test_context (strategy currentLang langPrefix baseUrl : string) : value :=
  VObj [("config", i18n_config strategy);
        ("currentLang", VStr currentLang);
        ("langPrefix", VStr langPrefix);
        ("baseUrl", VStr baseUrl)].

(** The template of the nested conditionals. *)
Definition nested_if : string := "{{#if a}}{{#if b}}X{{/if}}{{/if}}".

(** The loop as the specification words it: the body rendered once per
    element, in order, each under its loop-local context, and the results put
    end to end. *)
Fixpoint expand_each (render : string -> value -> M string) (body : string)
    (context : value) (len index : nat) (items : list value) : M string :=
  match items with
  | [] => ret ""
  | item :: rest =>
      out <- render body (loopContext context item index len) ;;
      outs <- expand_each render body context len (S index) rest ;;
      ret (out +:+ outs)
  end.

(** The loop-local context as the specification words it: the metadata keys
    first, then the keys of the element, then those of the outer context. *)
Definition loop_lookup (context item : value) (index len : nat) (k : string) : value :=
  if String.eqb k "@index" then VNum (Z.of_nat index)
  else if String.eqb k "@first" then VBool (index =? 0)
  else if String.eqb k "@last" then VBool (Z.of_nat index =? Z.of_nat len - 1)%Z
  else if has_key k (spread item) then assoc k (spread item)
  else assoc k (spread context).

(** The template and the contexts of the loop example. *)
Definition each_names : string := "{{#each items}}{{name}}-{{/each}}".

Definition items_a_b : value :=
  VObj [("items", VArr [VObj [("name", VStr "a")]; VObj [("name", VStr "b")]])].

Definition items_empty : value := VObj [("items", VArr [])].

Definition items_absent : value := VObj [].


(** The text of a helper tag. *)
Definition helper_tag (name args : string) : string :=
  "{{" +:+ name +:+ ":" +:+ args +:+ "}}".

(** The text of a variable tag. *)
Definition variable_tag (name : string) : string := "{{" +:+ name +:+ "}}".

(** A context whose [items] are two empty objects. *)
Definition two_items : value := VObj [("items", VArr [VObj []; VObj []])].

(** ** The page build: the locale of a page ([Builder.build], [renderPage]) *)

Module Build.

(** [this.config.i18n?.defaultLocale || 'de'] *)
Definition defaultLocale_of (config : Builder.ProjectConfig) : string :=
  match Builder.i18n config with
  | Some i18n =>
      if String.eqb (Builder.defaultLocale i18n) "" then "de"
      else Builder.defaultLocale i18n
  | None => "de"
  end.

(** The locales [build] makes a page for:
    [this.config.i18n?.locales || [this.config.i18n?.defaultLocale || 'de']]. *)
Definition locales_of (config : Builder.ProjectConfig) : list string :=
  match Builder.i18n config with
  | Some i18n => Builder.locales i18n
  | None => ["de"]
  end.

(** The [langPrefix] of the render context of a page:
    [this.getLangPrefix(locale || defaultLocale, defaultLocale)]. *)
Definition pageLangPrefix (config : Builder.ProjectConfig) (locale : string) : string :=
  let defaultLocale := defaultLocale_of config in
  Builder.getLangPrefix config
    (if String.eqb locale "" then defaultLocale else locale) defaultLocale.

End Build.

(** ** [SEOGenerator] *)

Module SEO.

(** [priority] is kept in tenths: 10 for 1.0, 8 for 0.8. *)
Record SitemapEntry : Type := {
  url : string;
  lastmod : option string;
  changefreq : option string;
  priority : option Z
}.

Record SEOGenerator : Type := {
  config : Builder.ProjectConfig;
  baseUrl : string
}.

(** The constructor; [siteUrl] is [config.meta?.siteUrl]. *)
Definition new (config : Builder.ProjectConfig) (siteUrl : option string) : SEOGenerator :=
  {| config := config;
     baseUrl := match siteUrl with Some u => u | None => "" end |}.

(** The entry of one page in one locale: the body of the two loops of
    [collectSitemapEntries]. *)
Definition entry (g : SEOGenerator) (today slug locale : string) : SitemapEntry :=
  let defaultLocale :=
    match Builder.i18n (config g) with
    | Some i18n =>
        if String.eqb (Builder.defaultLocale i18n) "" then "de"
        else Builder.defaultLocale i18n
    | None => "de"
    end in
  let strategy :=
    match Builder.i18n (config g) with
    | Some {| Builder.strategy := Some s |} => s
    | _ => Builder.prefix_except_default
    end in
  let url := baseUrl g in
  let url :=
    match Builder.i18n (config g) with
    | Some _ =>
        if Builder.Strategy_eqb strategy Builder.prefix_except_default
           && negb (String.eqb locale defaultLocale)
        then url +:+ "/" +:+ locale
        else if Builder.Strategy_eqb strategy Builder.prefix
        then url +:+ "/" +:+ locale
        else url
    | None => url
    end in
  let url :=
    if String.eqb slug "index" then url +:+ "/" else url +:+ "/" +:+ slug +:+ "/" in
  {| url := url;
     lastmod := Some today;
     changefreq := Some "weekly";
     priority := Some (if String.eqb slug "index" then 10 else 8)%Z |}.

(** [collectSitemapEntries], over the slugs of the page files and the date
    of the day: every page in every locale, pages outermost. *)
Definition collectSitemapEntries (g : SEOGenerator) (slugs : list string) (today : string)
  : list SitemapEntry :=
  let locales :=
    match Builder.i18n (config g) with
    | Some i18n => Builder.locales i18n
    | None => ["de"]
    end in
  flat_map (fun slug => map (entry g today slug) locales) slugs.

(** [escapeXml] *)
Definition escapeXml (str : string) : string :=
  replace_char "'" "&apos;"
    (replace_char (ascii_of_nat 34) "&quot;"
       (replace_char ">" "&gt;"
          (replace_char "<" "&lt;"
             (replace_char "&" "&amp;" str)))).

End SEO.

(** ** More vocabulary *)

(** Do two characters [c] stand side by side in [s]. *)
Fixpoint has_pair (c : ascii) (s : string) : bool :=
  match s with
  | String a (String b _ as t) => (Ascii.eqb a c && Ascii.eqb b c) || has_pair c t
  | _ => false
  end.

(** [s], [n] times. *)
Fixpoint repeat_string (n : nat) (s : string) : string :=
  match n with
  | 0 => ""
  | S k => s +:+ repeat_string k s
  end.

(** The text of a conditional block, with and without an else branch. *)
Definition if_else_block (condition yes no : string) : string :=
  "{{#if " +:+ condition +:+ "}}" +:+ yes +:+ "{{#else}}" +:+ no +:+ "{{/if}}".

Definition if_block (condition yes : string) : string :=
  "{{#if " +:+ condition +:+ "}}" +:+ yes +:+ "{{/if}}".

(** The text of a loop block. *)
Definition each_block (path body : string) : string :=
  "{{#each " +:+ path +:+ "}}" +:+ body +:+ "{{/each}}".

(** What the variable stage writes for a value. *)
Definition shown (v : value) : string :=
  match v with
  | VUndefined | VNull => ""
  | _ => toString v
  end.

(** The text [escape] makes of a string. *)
Definition escaped (text : string) : string :=
  replace_pair "}" "&#125;&#125;"
    (replace_pair "{" "&#123;&#123;"
       (replace_char "'" "&#39;"
          (replace_char (ascii_of_nat 34) "&quot;"
             (replace_char ">" "&gt;"
                (replace_char "<" "&lt;"
                   (replace_char "&" "&amp;" text)))))).

(** [a] less and less of its first characters, each time before [b], the
    longest first: where a lazy run over [a] stands before it reaches [b]. *)
Fixpoint fronts (a b : string) : list string :=
  match a with
  | "" => []
  | String c a' => (a +:+ b) :: fronts a' b
  end.

(** * Facts about strings *)

#[local] Arguments String.append !s1 s2 : simpl nomatch.

Lemma length_drop (n : nat) (s : string) :
  String.length (drop n s) = String.length s - n.
Proof.
  revert s; induction n as [|n IH]; intros [|c s]; simpl; auto; lia.
Qed.

Lemma length_take (n : nat) (s : string) :
  String.length (take n s) = Nat.min n (String.length s).
Proof.
  revert s; induction n as [|n IH]; intros [|c s]; simpl; auto.
Qed.


Lemma length_app (a b : string) :
  String.length (a +:+ b) = String.length a + String.length b.
Proof. induction a as [|c a IH]; simpl; auto. Qed.

Lemma startsWith_length (s p : string) :
  startsWith s p = true -> String.length p <= String.length s.
Proof.
  revert s; induction p as [|a p IH]; intros [|b s]; simpl; try lia; try discriminate.
  intros H. apply andb_prop in H as [_ H]. apply IH in H. lia.
Qed.

(** * Facts about the matcher *)

Lemma greedy_length (cls : ascii -> bool) (s t : string) :
  In t (greedy cls s) -> String.length t <= String.length s.
Proof.
  revert t; induction s as [|c s IH]; simpl; intros t H.
  - destruct H as [<-|[]]; simpl; lia.
  - destruct (cls c).
    + apply in_app_or in H as [H|[<-|[]]]; [apply IH in H; lia | simpl; lia].
    + destruct H as [<-|[]]; simpl; lia.
Qed.

Lemma lazy_length (cls : ascii -> bool) (s t : string) :
  In t (lazy cls s) -> String.length t <= String.length s.
Proof.
  revert t; induction s as [|c s IH]; simpl; intros t H.
  - destruct H as [<-|[]]; simpl; lia.
  - destruct H as [<-|H]; [simpl; lia|].
    destruct (cls c); [apply IH in H; lia | destruct H].
Qed.

(** A match consumes a prefix: what is left is no longer than the input. *)
Lemma rmatch_length (r : regex) :
  forall s caps t c, In (t, c) (rmatch r s caps) -> String.length t <= String.length s.
Proof.
  induction r as [l|cls|cls|n r IH|r IH|r1 IH1 r2 IH2]; simpl; intros s caps t c H.
  - destruct (startsWith s l); [|destruct H].
    destruct H as [H|[]]. inversion H; subst. rewrite length_drop. lia.
  - destruct s as [|a s]; [destruct H|].
    destruct (cls a); [|destruct H].
    apply in_map_iff in H as (u & Hu & Hin). inversion Hu; subst.
    apply greedy_length in Hin. simpl. lia.
  - apply in_map_iff in H as (u & Hu & Hin). inversion Hu; subst.
    now apply lazy_length in Hin.
  - apply in_map_iff in H as ([u d] & Hu & Hin). inversion Hu; subst.
    now apply IH in Hin.
  - apply in_app_or in H as [H|[H|[]]]; [now apply IH in H|].
    inversion H; subst. lia.
  - apply in_flat_map in H as ([u d] & H1 & H2).
    apply IH1 in H1. apply IH2 in H2. lia.
Qed.

(** A group that a match binds lies inside the prefix the match consumes. *)
Lemma rmatch_captures (r : regex) :
  forall s caps t c, In (t, c) (rmatch r s caps) ->
  forall n g, capture n c = Some g ->
  capture n caps = Some g \/ String.length g + String.length t <= String.length s.
Proof.
  induction r as [l|cls|cls|k r IH|r IH|r1 IH1 r2 IH2]; simpl; intros s caps t c H n g Hg.
  - destruct (startsWith s l); [|destruct H].
    destruct H as [H|[]]. inversion H; subst. now left.
  - destruct s as [|a s]; [destruct H|].
    destruct (cls a); [|destruct H].
    apply in_map_iff in H as (u & Hu & Hin). inversion Hu; subst. now left.
  - apply in_map_iff in H as (u & Hu & Hin). inversion Hu; subst. now left.
  - apply in_map_iff in H as ([u d] & Hu & Hin). inversion Hu; subst.
    pose proof (rmatch_length _ _ _ _ _ Hin) as Hlen.
    simpl in Hg. destruct (n =? k).
    + inversion Hg; subst. right. rewrite length_take. lia.
    + eapply IH; eauto.
  - apply in_app_or in H as [H|[H|[]]]; [eapply IH; eauto|].
    inversion H; subst. now left.
  - apply in_flat_map in H as ([u d] & H1 & H2).
    pose proof (rmatch_length _ _ _ _ _ H2) as Hlen.
    destruct (IH2 _ _ _ _ H2 _ _ Hg) as [Hd|Hd]; [|right].
    + destruct (IH1 _ _ _ _ H1 _ _ Hd) as [Hc|Hc]; [now left|right; lia].
    + pose proof (rmatch_length _ _ _ _ _ H1). lia.
Qed.

Lemma exec_In (r : regex) (s rest : string) (caps : captures) :
  exec r s = Some (rest, caps) -> In (rest, caps) (rmatch r s []).
Proof.
  unfold exec. destruct (rmatch r s []) as [|x l]; simpl; [discriminate|].
  intros H; inversion H; now left.
Qed.

Lemma exec_length (r : regex) (s rest : string) (caps : captures) :
  exec r s = Some (rest, caps) -> String.length rest <= String.length s.
Proof. intros H. apply exec_In in H. now apply rmatch_length in H. Qed.

(** Behind a literal, the text of every group is shorter than the match by
    the literal at least. *)
Lemma exec_lit_group (l : string) (r : regex) (s rest : string) (caps : captures) (n : nat) :
  exec (Lit l >> r) s = Some (rest, caps) ->
  String.length (group n caps) + String.length l + String.length rest <= String.length s.
Proof.
  intros H. apply exec_In in H. simpl in H.
  destruct (startsWith s l) eqn:Hs; [|destruct H].
  simpl in H. rewrite app_nil_r in H.
  apply startsWith_length in Hs.
  pose proof (rmatch_length _ _ _ _ _ H) as Hlen. rewrite length_drop in Hlen.
  unfold group. destruct (capture n caps) as [g|] eqn:Hg; simpl; [|lia].
  destruct (rmatch_captures _ _ _ _ _ H _ _ Hg) as [Hc|Hc]; [discriminate|].
  rewrite length_drop in Hc. lia.
Qed.

Lemma scan_cons (r : regex) (c : ascii) (s : string) :
  scan r 0 (String c s)
  = match exec r (String c s) with
    | Some (rest, caps) =>
        let len := String.length (String c s) - String.length rest in
        Match (take len (String c s)) caps ::
          match len with
          | 0 => Text c :: scan r 0 s
          | S k => scan r k s
          end
    | None => Text c :: scan r 0 s
    end.
Proof. reflexivity. Qed.

Lemma scan_nil (r : regex) :
  scan r 0 "" = match exec r "" with
                | Some (rest, caps) => [Match "" caps]
                | None => []
                end.
Proof. simpl. destruct (exec r "") as [[rest caps]|]; reflexivity. Qed.

(** Every match [scan] reports is a match of the pattern at some position
    of the input. *)
Lemma scan_Match (r : regex) (m : string) (caps : captures) :
  forall s k, In (Match m caps) (scan r k s) ->
  exists s' rest,
    exec r s' = Some (rest, caps)
    /\ m = take (String.length s' - String.length rest) s'
    /\ String.length s' <= String.length s.
Proof.
  induction s as [|c s IH]; intros k H.
  - destruct k; [|destruct H].
    rewrite scan_nil in H.
    destruct (exec r "") as [[rest caps0]|] eqn:He; [|destruct H].
    destruct H as [H|[]]. inversion H; subst.
    exists "", rest. repeat split; auto.
  - destruct k as [|k].
    + rewrite scan_cons in H.
      destruct (exec r (String c s)) as [[rest caps0]|] eqn:He.
      * cbv zeta in H. destruct H as [H|H].
        { inversion H; subst. exists (String c s), rest. repeat split; auto. }
        assert (exists j, In (Match m caps) (scan r j s)) as [j Hj].
        { destruct (String.length (String c s) - String.length rest) as [|j].
          - destruct H as [H|H]; [discriminate|]. now exists 0.
          - now exists j. }
        destruct (IH _ Hj) as (s' & rest' & H1 & H2 & H3).
        exists s', rest'. repeat split; auto. simpl; lia.
      * destruct H as [H|H]; [discriminate|].
        destruct (IH _ H) as (s' & rest' & H1 & H2 & H3).
        exists s', rest'. repeat split; auto. simpl; lia.
    + simpl in H. destruct (IH _ H) as (s' & rest' & H1 & H2 & H3).
      exists s', rest'. repeat split; auto. simpl; lia.
Qed.

Section ReplaceLength.

Variable r : regex.
Variable callback : string -> captures -> string.

(** When the callback never returns more than the match it replaces,
    [replace] does not lengthen its input. *)
Lemma glue_scan_le :
  (forall s rest caps, exec r s = Some (rest, caps) ->
     String.length (callback (take (String.length s - String.length rest) s) caps)
     <= String.length s - String.length rest) ->
  forall s k, String.length (glue callback (scan r k s)) <= String.length s - k.
Proof.
  intros Hcb. induction s as [|c s IH]; intros k.
  - destruct k; [|simpl; lia].
    rewrite scan_nil.
    destruct (exec r "") as [[rest caps]|] eqn:He; simpl; [|lia].
    apply Hcb in He. simpl in He. rewrite length_app. simpl. lia.
  - destruct k as [|k]; [|apply IH].
    rewrite scan_cons.
    destruct (exec r (String c s)) as [[rest caps]|] eqn:He.
    + pose proof (Hcb _ _ _ He) as Hb. cbv zeta.
      pose proof (exec_length _ _ _ _ He) as Hr.
      destruct (String.length (String c s) - String.length rest) as [|j] eqn:Hlen;
        cbn [glue]; rewrite length_app; simpl in *.
      * specialize (IH 0). lia.
      * specialize (IH j). lia.
    + specialize (IH 0). simpl. lia.
Qed.

(** When it always returns less, and there is a match, [replace] shortens
    its input. *)
Lemma glue_scan_lt :
  (forall s rest caps, exec r s = Some (rest, caps) ->
     String.length (callback (take (String.length s - String.length rest) s) caps)
     < String.length s - String.length rest) ->
  forall s, test r s = true -> String.length (replace r callback s) < String.length s.
Proof.
  intros Hcb.
  assert (Hle : forall s k, String.length (glue callback (scan r k s)) <= String.length s - k).
  { apply glue_scan_le. intros s rest caps He. apply Hcb in He. lia. }
  unfold replace. induction s as [|c s IH]; intros Ht.
  - simpl in Ht. destruct (exec r "") as [[rest caps]|] eqn:He; [|discriminate].
    apply Hcb in He. simpl in He. lia.
  - rewrite scan_cons. simpl in Ht.
    destruct (exec r (String c s)) as [[rest caps]|] eqn:He.
    + pose proof (Hcb _ _ _ He) as Hb. cbv zeta.
      pose proof (exec_length _ _ _ _ He) as Hr.
      destruct (String.length (String c s) - String.length rest) as [|j] eqn:Hlen;
        cbn [glue]; rewrite length_app; simpl in *; [lia|].
      specialize (Hle s j). lia.
    + apply IH in Ht. simpl. lia.
Qed.

End ReplaceLength.

(** * The conditional stage ends *)

Lemma ifCallback_shorter (context : value) (s rest : string) (caps : captures) :
  exec ifRegex s = Some (rest, caps) ->
  String.length (ifCallback context (take (String.length s - String.length rest) s) caps)
  < String.length s - String.length rest.
Proof.
  intros He. unfold ifCallback.
  pose proof (exec_lit_group _ _ _ _ _ 2 He) as H2.
  pose proof (exec_lit_group _ _ _ _ _ 3 He) as H3.
  simpl in H2, H3.
  destruct (evaluateCondition _ _); lia.
Qed.

(** One pass of the [while] loop shortens the text it works on. *)
Lemma conditionals_pass_shorter (context : value) (output : string) :
  test ifRegex output = true ->
  String.length (replace ifRegex (ifCallback context) output) < String.length output.
Proof. apply glue_scan_lt. intros s rest caps. apply ifCallback_shorter. Qed.

Lemma conditionalsLoop_total (context : value) :
  forall fuel output previousOutput,
  String.length output < fuel ->
  exists out,
    conditionalsLoop fuel output previousOutput context = Some out
    /\ String.length out <= String.length output.
Proof.
  induction fuel as [|fuel IH]; intros output prev Hlt; [lia|].
  simpl.
  destruct (negb (String.eqb output prev) && test ifRegex output) eqn:Hguard.
  - apply andb_prop in Hguard as [_ Ht].
    pose proof (conditionals_pass_shorter context output Ht) as Hs.
    destruct (IH (replace ifRegex (ifCallback context) output) output) as (out & Ho & Hl); [lia|].
    exists out. split; [exact Ho | lia].
  - exists output. split; [reflexivity | lia].
Qed.

Lemma processConditionals_total (template : string) (context : value) :
  exists out,
    processConditionals template context = Some out
    /\ String.length out <= String.length template.
Proof. apply conditionalsLoop_total. lia. Qed.

(** * [render] ends, whatever the fuel above the length of the template *)

Lemma glueM_ext (f g : string -> captures -> M string) (segs : list segment) :
  (forall m caps, In (Match m caps) segs -> f m caps = g m caps) ->
  glueM f segs = glueM g segs.
Proof.
  induction segs as [|[c|m caps] segs IH]; intros H; simpl; auto.
  - rewrite IH; auto. intros; apply H; now right.
  - rewrite (H m caps) by now left.
    rewrite IH; auto. intros; apply H; now right.
Qed.


Lemma mapM_ext {A B : Type} (f g : A -> M B) (l : list A) :
  (forall x, In x l -> f x = g x) -> mapM f l = mapM g l.
Proof.
  induction l as [|x l IH]; intros H; simpl; auto.
  rewrite (H x) by now left. rewrite IH; auto. intros; apply H; now right.
Qed.


(** The body of a loop is shorter than the text the loop stands in. *)
Lemma loop_body_shorter (s m : string) (caps : captures) :
  In (Match m caps) (scan eachRegex 0 s) ->
  String.length (group 2 caps) < String.length s.
Proof.
  intros H. apply scan_Match in H as (s' & rest & He & _ & Hlen).
  pose proof (exec_lit_group _ _ _ _ _ 2 He) as H2. simpl in H2. lia.
Qed.

Lemma eachCallback_ext (f g : string -> value -> M string) (context : value)
    (m : string) (caps : captures) :
  (forall c, f (group 2 caps) c = g (group 2 caps) c) ->
  eachCallback f context m caps = eachCallback g context m caps.
Proof.
  intros H. unfold eachCallback.
  destruct (getNestedValue context (trim (group 1 caps))); auto.
  erewrite mapM_ext; [reflexivity|]. intros [i x] _. apply H.
Qed.





Lemma render_fuel_stable (helpers : TemplateHelpers) :
  forall fuel fuel' template context,
  String.length template < fuel ->
  String.length template < fuel' ->
  render_fuel fuel helpers template context = render_fuel fuel' helpers template context.
Proof.
  induction fuel as [|fuel IH]; intros [|fuel'] template context H1 H2; try lia.
  simpl.
  destruct (processConditionals_total template context) as (c & -> & Hc). simpl.
  unfold processLoops, replaceM.
  rewrite (glueM_ext (eachCallback (render_fuel fuel helpers) context)
                     (eachCallback (render_fuel fuel' helpers) context)); [reflexivity|].
  intros m caps Hin. apply eachCallback_ext. intros ctx'.
  apply loop_body_shorter in Hin. apply IH; lia.
Qed.

(** [render] is the fixed point the source writes: its loop stage calls
    [render] itself on the loop bodies. *)
Lemma render_unfold (helpers : TemplateHelpers) (template : string) (context : value) :
  render helpers template context
  = (output <- lift (processConditionals template context) ;;
     output <- processLoops (render helpers) output context ;;
     output <- processHelpers helpers output context ;;
     ret (processVariables output context)).
Proof.
  unfold render at 1. simpl.
  destruct (processConditionals_total template context) as (c & -> & Hc). simpl.
  unfold processLoops, replaceM.
  rewrite (glueM_ext (eachCallback (render_fuel (String.length template) helpers) context)
                     (eachCallback (render helpers) context)); [reflexivity|].
  intros m caps Hin. apply eachCallback_ext. intros ctx'.
  apply loop_body_shorter in Hin. unfold render. apply render_fuel_stable; lia.
Qed.

(** * [evaluateCondition] as the source writes it *)

Lemma evaluateCondition_eq (condition : string) (context : value) :
  evaluateCondition condition context
  = if startsWith condition "!"
    then negb (evaluateCondition (slice_from_1 condition) context)
    else match getNestedValue context condition with
         | VArr items => 0 <? length items
         | value => truthy value
         end.
Proof.
  destruct condition as [|c rest].
  - cbn [evaluateCondition startsWith].
    destruct (getNestedValue context ""); reflexivity.
  - assert (startsWith (String c rest) "!" = Ascii.eqb "!" c) as ->.
    { cbn [startsWith]. destruct (Ascii.eqb "!" c), rest; reflexivity. }
    cbn [slice_from_1 drop].
    destruct (Ascii.eqb_spec "!" c) as [<-|Hne]; [reflexivity|].
    destruct c as [[] [] [] [] [] [] [] []]; try (now contradict Hne);
      cbn [evaluateCondition];
      match goal with |- context [getNestedValue ?c ?p] =>
        destruct (getNestedValue c p); reflexivity
      end.
Qed.

(** * Stages that find nothing to do *)

Lemma scan_no_match (r : regex) (s : string) :
  test r s = false -> scan r 0 s = texts s.
Proof.
  induction s as [|c s IH]; intros H.
  - rewrite scan_nil. simpl in H. destruct (exec r ""); [discriminate | reflexivity].
  - rewrite scan_cons. simpl in H.
    destruct (exec r (String c s)); [discriminate|].
    simpl. now rewrite IH.
Qed.

Lemma glue_texts (f : string -> captures -> string) (s : string) :
  glue f (texts s) = s.
Proof. induction s as [|c s IH]; simpl; congruence. Qed.

Lemma glueM_texts (f : string -> captures -> M string) (s : string) :
  glueM f (texts s) = ret s.
Proof. induction s as [|c s IH]; simpl; [reflexivity|]. now rewrite IH. Qed.

Lemma replace_no_match (r : regex) (f : string -> captures -> string) (s : string) :
  test r s = false -> replace r f s = s.
Proof. intros H. unfold replace. rewrite scan_no_match by assumption. apply glue_texts. Qed.

Lemma replaceM_no_match (r : regex) (f : string -> captures -> M string) (s : string) :
  test r s = false -> replaceM r f s = ret s.
Proof. intros H. unfold replaceM. rewrite scan_no_match by assumption. apply glueM_texts. Qed.

Lemma conditionalsLoop_stop (fuel : nat) (output previousOutput : string) (context : value) :
  test ifRegex output = false ->
  conditionalsLoop fuel output previousOutput context = Some output.
Proof.
  intros H. destruct fuel; simpl; rewrite H, andb_false_r; reflexivity.
Qed.

Lemma conditionalsLoop_step (fuel : nat) (output previousOutput : string) (context : value) :
  String.eqb output previousOutput = false ->
  test ifRegex output = true ->
  conditionalsLoop (S fuel) output previousOutput context
  = conditionalsLoop fuel (replace ifRegex (ifCallback context) output) output context.
Proof. intros H1 H2. simpl. rewrite H1, H2. reflexivity. Qed.

Lemma processConditionals_no_match (template : string) (context : value) :
  test ifRegex template = false -> processConditionals template context = Some template.
Proof. apply conditionalsLoop_stop. Qed.

(** A template none of the four patterns matches renders as itself. *)
Lemma render_plain (helpers : TemplateHelpers) (template : string) (context : value) :
  test ifRegex template = false ->
  test eachRegex template = false ->
  test helperRegex template = false ->
  test varRegex template = false ->
  render helpers template context = Some (template, []).
Proof.
  intros H1 H2 H3 H4. rewrite render_unfold.
  rewrite processConditionals_no_match by assumption. cbn [lift ret bindM].
  unfold processLoops. rewrite replaceM_no_match by assumption. cbn [ret bindM].
  unfold processHelpers. rewrite replaceM_no_match by assumption. cbn [ret bindM].
  unfold processVariables. rewrite replace_no_match by assumption. reflexivity.
Qed.

(** * Where a pattern cannot match *)

Lemma append_assoc (a b c : string) : (a +:+ b) +:+ c = a +:+ (b +:+ c).
Proof. induction a as [|x a IH]; simpl; congruence. Qed.

Lemma occurs_app (a : ascii) (p s : string) :
  occurs a (p +:+ s) = occurs a p || occurs a s.
Proof. induction p as [|c p IH]; simpl; auto. rewrite IH. apply orb_assoc. Qed.


Lemma every_occurs (cls : ascii -> bool) (a : ascii) (s : string) :
  every cls s = true -> cls a = false -> occurs a s = false.
Proof.
  intros Hs Ha. induction s as [|c s IH]; simpl in *; auto.
  apply andb_prop in Hs as [Hc Hs]. rewrite IH by assumption.
  destruct (Ascii.eqb_spec c a); [congruence | reflexivity].
Qed.




Lemma rmatch_lit_seq (l : string) (r : regex) (s : string) (caps : captures) :
  rmatch (Lit l >> r) s caps
  = if startsWith s l then rmatch r (drop (String.length l) s) caps else [].
Proof. simpl. destruct (startsWith s l); simpl; [apply app_nil_r | reflexivity]. Qed.

Lemma rmatch_seq_nil (r1 r2 : regex) (s : string) (caps : captures) :
  (forall t c, In (t, c) (rmatch r1 s caps) -> rmatch r2 t c = []) ->
  rmatch (r1 >> r2) s caps = [].
Proof.
  intros H. simpl. induction (rmatch r1 s caps) as [|[t c] l IH]; simpl; auto.
  rewrite (H t c) by now left. apply IH. intros; apply H; now right.
Qed.

Lemma startsWith_occurs (a : ascii) (s l : string) :
  startsWith s l = true -> occurs a l = true -> occurs a s = true.
Proof.
  revert s; induction l as [|x l IH]; intros [|y s]; simpl; try discriminate.
  intros H Ho. apply andb_prop in H as [Hxy H].
  apply Ascii.eqb_eq in Hxy as ->.
  destruct (Ascii.eqb y a); simpl in *; auto.
Qed.

(** A pattern that begins with a literal matches nowhere in a text that
    lacks a character of the literal. *)
Lemma test_lit_needs (a : ascii) (l : string) (r : regex) (s : string) :
  occurs a l = true -> occurs a s = false -> test (Lit l >> r) s = false.
Proof.
  intros Hl. induction s as [|c s IH]; intros Hs.
  - cbn [test]. unfold exec. rewrite rmatch_lit_seq.
    destruct (startsWith "" l) eqn:E; [|reflexivity].
    rewrite (startsWith_occurs a _ _ E Hl) in Hs. discriminate.
  - cbn [test]. unfold exec. rewrite rmatch_lit_seq.
    destruct (startsWith (String c s) l) eqn:E.
    + rewrite (startsWith_occurs a _ _ E Hl) in Hs. discriminate.
    + simpl. apply IH. simpl in Hs. now apply orb_false_elim in Hs as [_ Hs].
Qed.


(** * Matching a tag whose parts are known *)

Lemma take_app_exact (p q : string) : take (String.length p) (p +:+ q) = p.
Proof. induction p as [|c p IH]; simpl; [now destruct q | congruence]. Qed.

Lemma drop_app_exact (p q : string) : drop (String.length p) (p +:+ q) = q.
Proof. induction p as [|c p IH]; simpl; [now destruct q | congruence]. Qed.

Lemma startsWith_app (p q : string) : startsWith (p +:+ q) p = true.
Proof.
  induction p as [|c p IH]; simpl; [now destruct q|].
  now rewrite Ascii.eqb_refl, IH.
Qed.

(** A greedy run over [a] that must stop before [b] first takes all of [a],
    then gives its characters back one at a time. *)
Lemma greedy_app (cls : ascii -> bool) (a b : string) :
  every cls a = true -> stops cls b = true ->
  greedy cls (a +:+ b) = b :: backtracks a b.
Proof.
  intros Ha Hb. induction a as [|c a IH]; simpl in *.
  - destruct b as [|x b]; simpl in *; [reflexivity|].
    now destruct (cls x).
  - apply andb_prop in Ha as [Hc Ha]. rewrite Hc, IH by assumption. reflexivity.
Qed.


Section GroupPlus.

Variable n : nat.
Variable cls : ascii -> bool.
Variable c : ascii.
Variables a b : string.
Hypothesis Hc : cls c = true.
Hypothesis Ha : every cls a = true.
Hypothesis Hb : stops cls b = true.

(** [([cls]+)] before more pattern: the first try binds the whole run. *)
Lemma group_plus_first (r : regex) (caps : captures) (x : string * captures) :
  hd_error (rmatch r b ((n, String c a) :: caps)) = Some x ->
  hd_error (rmatch (Group n (Plus cls) >> r) (String c (a +:+ b)) caps) = Some x.
Proof.
  intros Hx. cbn [rmatch]. rewrite Hc, greedy_app by assumption.
  cbn [map flat_map].
  replace (String.length (String c (a +:+ b)) - String.length b)
    with (String.length (String c a)) by (simpl; rewrite length_app; lia).
  change (String c (a +:+ b)) with (String c a +:+ b).
  rewrite take_app_exact.
  destruct (rmatch r b ((n, String c a) :: caps)) as [|y l]; [discriminate|].
  simpl in *. exact Hx.
Qed.


End GroupPlus.

(** The variable pattern on a variable tag. *)
Lemma exec_varRegex_tag (name post : string) :
  name <> "" -> every word_dot name = true ->
  exec varRegex ("{{" +:+ name +:+ "}}" +:+ post) = Some (post, [(1, name)]).
Proof.
  intros Hne Hn. destruct name as [|c name]; [congruence|].
  simpl in Hn. apply andb_prop in Hn as [Hc Hn].
  unfold exec, varRegex. rewrite rmatch_lit_seq.
  change ("{{" +:+ String c name +:+ "}}" +:+ post)
    with ("{{" +:+ String c (name +:+ "}}" +:+ post)).
  rewrite startsWith_app, drop_app_exact.
  apply group_plus_first; [exact Hc | exact Hn | reflexivity |].
  cbn [rmatch]. now rewrite startsWith_app, drop_app_exact.
Qed.

(** The helper pattern on a helper tag. *)
Lemma exec_helperRegex_tag (name args post : string) :
  name <> "" -> every word name = true ->
  args <> "" -> every not_brace args = true ->
  exec helperRegex ("{{" +:+ name +:+ ":" +:+ args +:+ "}}" +:+ post)
  = Some (post, [(2, args); (1, name)]).
Proof.
  intros Hne Hn Hae Ha.
  destruct name as [|c name]; [congruence|]. destruct args as [|d args]; [congruence|].
  simpl in Hn, Ha. apply andb_prop in Hn as [Hc Hn]. apply andb_prop in Ha as [Hd Ha].
  unfold exec, helperRegex. rewrite rmatch_lit_seq.
  change ("{{" +:+ String c name +:+ ":" +:+ String d args +:+ "}}" +:+ post)
    with ("{{" +:+ String c (name +:+ ":" +:+ String d (args +:+ "}}" +:+ post))).
  rewrite startsWith_app, drop_app_exact.
  apply group_plus_first; [exact Hc | exact Hn | reflexivity |].
  rewrite rmatch_lit_seq.
  rewrite startsWith_app, drop_app_exact.
  apply group_plus_first; [exact Hd | exact Ha | reflexivity |].
  cbn [rmatch]. now rewrite startsWith_app, drop_app_exact.
Qed.

(** * [scan] on a text whose shape is known *)

Lemma scan_skip (r : regex) :
  forall k s, k <= String.length s -> scan r k s = scan r 0 (drop k s).
Proof.
  induction k as [|k IH]; intros [|c s] H; simpl in H; try lia; try reflexivity.
  cbn [scan drop]. apply IH. lia.
Qed.

(** A match at the start of the text is the first segment; the search goes
    on behind it. *)
Lemma scan_match_first (r : regex) (m post : string) (caps : captures) :
  m <> "" -> exec r (m +:+ post) = Some (post, caps) ->
  scan r 0 (m +:+ post) = Match m caps :: scan r 0 post.
Proof.
  intros Hm He. destruct m as [|c m]; [congruence|].
  change (String c m +:+ post) with (String c (m +:+ post)) in *.
  rewrite scan_cons, He. cbv zeta.
  replace (String.length (String c (m +:+ post)) - String.length post)
    with (S (String.length m)) by (simpl; rewrite length_app; lia).
  change (String c (m +:+ post)) with (String c m +:+ post).
  change (S (String.length m)) with (String.length (String c m)) at 1.
  rewrite take_app_exact. f_equal.
  rewrite scan_skip by (rewrite length_app; lia).
  now rewrite drop_app_exact.
Qed.

(** A text with a single opening [{{], followed by [c]: a pattern that
    wants another character there matches nowhere. *)
Lemma test_cons (r : regex) (c : ascii) (s : string) :
  test r (String c s) = match exec r (String c s) with
                        | Some _ => true
                        | None => test r s
                        end.
Proof. reflexivity. Qed.

Lemma exec_lit_mismatch (l : string) (r : regex) (s : string) :
  startsWith s l = false -> exec (Lit l >> r) s = None.
Proof. intros H. unfold exec. now rewrite rmatch_lit_seq, H. Qed.

Lemma test_other_opening (x c : ascii) (l : string) (r : regex) (w : string) :
  x <> c -> c <> "{"%char -> occurs "{" w = false ->
  test (Lit (String "{" (String "{" (String x l))) >> r) ("{{" +:+ String c w) = false.
Proof.
  intros Hx Hc Hw.
  apply Ascii.eqb_neq in Hx.
  assert (Hc2 : Ascii.eqb "{" c = false) by (apply Ascii.eqb_neq; congruence).
  apply Ascii.eqb_neq in Hc.
  change ("{{" +:+ String c w) with (String "{" (String "{" (String c w))).
  rewrite test_cons, exec_lit_mismatch
    by (cbn [startsWith]; now rewrite !Ascii.eqb_refl, Hx).
  rewrite test_cons, exec_lit_mismatch
    by (cbn [startsWith]; now rewrite !Ascii.eqb_refl, Hc2).
  apply (test_lit_needs "{"); [reflexivity|].
  cbn [occurs]. now rewrite Hc, Hw.
Qed.

(** The text of a helper tag holds no conditional and no loop. *)
Lemma helper_tag_no_block (name rest : string) :
  name <> "" -> every word name = true -> occurs "{" rest = false ->
  test ifRegex ("{{" +:+ name +:+ rest) = false
  /\ test eachRegex ("{{" +:+ name +:+ rest) = false.
Proof.
  intros Hne Hn Hr. destruct name as [|c name]; [congruence|].
  simpl in Hn. apply andb_prop in Hn as [Hc Hn].
  assert (Hw : occurs "{" (name +:+ rest) = false).
  { rewrite occurs_app, Hr, orb_false_r. now apply (every_occurs word). }
  assert (Hc1 : "#"%char <> c) by (intros <-; discriminate).
  assert (Hc2 : c <> "{"%char) by (intros ->; discriminate).
  change ("{{" +:+ String c name +:+ rest) with ("{{" +:+ String c (name +:+ rest)).
  split; apply test_other_opening; assumption.
Qed.


(** Plain text before a tag: a pattern that begins with an opening brace
    finds nothing in it. *)
Lemma test_plain_prefix (l : string) (r : regex) (pre s : string) :
  occurs "{" pre = false ->
  test (Lit (String "{" l) >> r) (pre +:+ s) = test (Lit (String "{" l) >> r) s.
Proof.
  intros Hp. induction pre as [|c pre IH]; [reflexivity|].
  cbn [occurs] in Hp. apply orb_false_elim in Hp as [Hc Hp].
  change (String c pre +:+ s) with (String c (pre +:+ s)).
  rewrite test_cons, exec_lit_mismatch; [now apply IH|].
  cbn [startsWith]. rewrite Ascii.eqb_sym, Hc. reflexivity.
Qed.

Lemma scan_plain_prefix (l : string) (r : regex) (pre s : string) :
  occurs "{" pre = false ->
  scan (Lit (String "{" l) >> r) 0 (pre +:+ s)
  = texts pre ++ scan (Lit (String "{" l) >> r) 0 s.
Proof.
  intros Hp. induction pre as [|c pre IH]; [reflexivity|].
  cbn [occurs] in Hp. apply orb_false_elim in Hp as [Hc Hp].
  change (String c pre +:+ s) with (String c (pre +:+ s)).
  rewrite scan_cons, exec_lit_mismatch.
  - cbn [texts app]. now rewrite IH.
  - cbn [startsWith]. rewrite Ascii.eqb_sym, Hc. reflexivity.
Qed.

(** * The locale prefix *)

(** C3.  The prefix [getLangPrefix] computes: empty without an i18n
    configuration; under [prefix_except_default] (also when the configuration
    writes no strategy) empty for the default locale and [/locale] for any
    other; under [prefix] always [/locale], the default locale included. *)
Theorem C3_getLangPrefix (locale defaultLocale : string) :
  Builder.getLangPrefix {| Builder.i18n := None |} locale defaultLocale = ""
  /\ (forall dl ls,
        Builder.getLangPrefix
          {| Builder.i18n := Some {| Builder.defaultLocale := dl; Builder.locales := ls;
                                     Builder.strategy := Some Builder.prefix_except_default |} |}
          locale defaultLocale
        = if String.eqb locale defaultLocale then "" else "/" +:+ locale)
  /\ (forall dl ls,
        Builder.getLangPrefix
          {| Builder.i18n := Some {| Builder.defaultLocale := dl; Builder.locales := ls;
                                     Builder.strategy := None |} |}
          locale defaultLocale
        = if String.eqb locale defaultLocale then "" else "/" +:+ locale)
  /\ (forall dl ls,
        Builder.getLangPrefix
          {| Builder.i18n := Some {| Builder.defaultLocale := dl; Builder.locales := ls;
                                     Builder.strategy := Some Builder.prefix |} |}
          locale defaultLocale
        = "/" +:+ locale).
Proof. repeat split; intros; reflexivity. Qed.

(** * The [url] helper *)

Lemma url_helper_root (baseUrl prefix path : string) (props : list (string * value)) :
  path = "/" \/ path = "" ->
  url_helper (VObj (("baseUrl", VStr baseUrl) :: ("langPrefix", VStr prefix) :: props)) [path]
  = Ok (VStr (baseUrl +:+ prefix +:+ "/")).
Proof.
  intros Hp. unfold url_helper. cbn [member JS.bind get assoc String.eqb Ascii.eqb
                                      Bool.eqb andb arg nth_error as_string].
  assert (forall s, toString (or_else (VStr s) (VStr "")) = s) as Hor.
  { intros s. unfold or_else. cbn [truthy].
    destruct (String.eqb_spec s ""); subst; reflexivity. }
  rewrite !Hor. destruct Hp as [-> | ->]; reflexivity.
Qed.

(** C1 (the code departs from the claim).  On the root path, written [/] or
    left empty, the [url] helper returns the base URL, then the locale
    prefix, then the slash.  With [langPrefix] [/de], the context of the
    repository's own test, [{{url:/}}] renders as [/de/] where the claim and
    the test want [/]. *)
Theorem C1_url_root_keeps_locale_prefix (year : Z) :
  (forall baseUrl prefix props,
     let context := VObj (("baseUrl", VStr baseUrl) :: ("langPrefix", VStr prefix) :: props) in
     url_helper context ["/"] = Ok (VStr (baseUrl +:+ prefix +:+ "/"))
     /\ url_helper context [""] = Ok (VStr (baseUrl +:+ prefix +:+ "/")))
  /\ defaultHelpers year !! "url" = Some (HFun url_helper)
  /\ render (defaultHelpers year) "{{url:/}}"
       (test_context "prefix_except_default" "de" "/de" "")
     = Some ("/de/", [])
  /\ render (defaultHelpers year) "{{url:/}}" (test_context "prefix" "de" "/de" "")
     = Some ("/de/", []).
Proof.
  split; [|repeat split; vm_compute; reflexivity].
  intros baseUrl prefix props context.
  split; apply url_helper_root; [now left | now right].
Qed.

(** * Nested conditionals *)

(** C2 (the code departs from the claim).  When the outer condition is
    falsy, the first pass replaces [{{#if a}}{{#if b}}X{{/if}}] by nothing:
    the non-greedy body of the outer block ends at the closing tag of the
    inner one.  The closing tag that is left matches no pattern, so the
    template renders as [{{/if}}], where the claim wants the empty string. *)
Theorem C2_nested_if_outer_false (helpers : TemplateHelpers) (context : value) :
  evaluateCondition "a" context = false ->
  render helpers nested_if context = Some ("{{/if}}", []).
Proof.
  intros Ha. rewrite render_unfold.
  assert (processConditionals nested_if context = Some "{{/if}}") as ->.
  { unfold processConditionals.
    change (S (String.length nested_if)) with 34.
    rewrite conditionalsLoop_step by (vm_compute; reflexivity).
    unfold replace.
    replace (scan ifRegex 0 nested_if)
      with [Match "{{#if a}}{{#if b}}X{{/if}}" [(2, "{{#if b}}X"); (1, "a")];
            Text "{"; Text "{"; Text "/"; Text "i"; Text "f"; Text "}"; Text "}"]
      by (vm_compute; reflexivity).
    cbn [glue]. unfold ifCallback.
    change (trim (group 1 [(2, "{{#if b}}X"); (1, "a")])) with "a".
    rewrite Ha.
    apply conditionalsLoop_stop. vm_compute; reflexivity. }
  cbn [lift ret bindM].
  unfold processLoops. rewrite replaceM_no_match by (vm_compute; reflexivity).
  cbn [ret bindM].
  unfold processHelpers. rewrite replaceM_no_match by (vm_compute; reflexivity).
  cbn [ret bindM].
  unfold processVariables. rewrite replace_no_match by (vm_compute; reflexivity).
  reflexivity.
Qed.

Lemma C2_nested_if_outer_false_witness :
  render (defaultHelpers 2025) nested_if (VObj [("a", VBool false); ("b", VBool true)])
  = Some ("{{/if}}", []).
Proof. apply C2_nested_if_outer_false. reflexivity. Defined.

(** The part of the claim the code keeps: with a truthy outer condition the
    second pass resolves the inner block. *)
Lemma nested_if_outer_true (helpers : TemplateHelpers) (context : value) :
  evaluateCondition "a" context = true ->
  render helpers nested_if context
  = Some (if evaluateCondition "b" context then "X" else "", []).
Proof.
  intros Ha. rewrite render_unfold.
  assert (processConditionals nested_if context
          = Some (if evaluateCondition "b" context then "X" else "")) as ->.
  { unfold processConditionals.
    change (S (String.length nested_if)) with 34.
    rewrite conditionalsLoop_step by (vm_compute; reflexivity).
    unfold replace.
    replace (scan ifRegex 0 nested_if)
      with [Match "{{#if a}}{{#if b}}X{{/if}}" [(2, "{{#if b}}X"); (1, "a")];
            Text "{"; Text "{"; Text "/"; Text "i"; Text "f"; Text "}"; Text "}"]
      by (vm_compute; reflexivity).
    cbn [glue]. unfold ifCallback.
    change (trim (group 1 [(2, "{{#if b}}X"); (1, "a")])) with "a".
    rewrite Ha.
    change (group 2 [(2, "{{#if b}}X"); (1, "a")] +:+ "{{/if}}") with "{{#if b}}X{{/if}}".
    rewrite conditionalsLoop_step by (vm_compute; reflexivity).
    unfold replace.
    replace (scan ifRegex 0 "{{#if b}}X{{/if}}")
      with [Match "{{#if b}}X{{/if}}" [(2, "X"); (1, "b")]]
      by (vm_compute; reflexivity).
    cbn [glue]. unfold ifCallback.
    change (trim (group 1 [(2, "X"); (1, "b")])) with "b".
    destruct (evaluateCondition "b" context);
      apply conditionalsLoop_stop; vm_compute; reflexivity. }
  cbn [lift ret bindM].
  destruct (evaluateCondition "b" context).
  - unfold processLoops. rewrite replaceM_no_match by (vm_compute; reflexivity).
    cbn [ret bindM].
    unfold processHelpers. rewrite replaceM_no_match by (vm_compute; reflexivity).
    reflexivity.
  - reflexivity.
Qed.

(** * [render] returns *)


(** * Loops *)

Lemma assoc_app (k : string) (a b : list (string * value)) :
  assoc k (a ++ b) = if has_key k a then assoc k a else assoc k b.
Proof.
  induction a as [|[k' v] a IH]; simpl; auto.
  destruct (String.eqb k k'); simpl; auto.
Qed.

Lemma loopContext_lookup (context item : value) (index len : nat) (k : string) :
  get (loopContext context item index len) k = loop_lookup context item index len k.
Proof.
  unfold loopContext, loop_lookup. cbn [get assoc].
  destruct (String.eqb k "@index"); auto.
  destruct (String.eqb k "@first"); auto.
  destruct (String.eqb k "@last"); auto.
  apply assoc_app.
Qed.

Lemma append_nil_r (s : string) : s +:+ "" = s.
Proof. induction s as [|c s IH]; simpl; congruence. Qed.

Lemma join_empty_cons (y : string) (ys : list string) :
  join "" (y :: ys) = y +:+ join "" ys.
Proof. destruct ys; simpl; [now rewrite append_nil_r | reflexivity]. Qed.

Lemma eachCallback_array (render : string -> value -> M string) (context : value)
    (body : string) (len : nat) :
  forall l i,
  (parts <- mapM (fun '(index, item) => render body (loopContext context item index len))
                 (indexed i l) ;;
   ret (join "" parts))
  = expand_each render body context len i l.
Proof.
  induction l as [|item l IH]; intros i; [reflexivity|].
  cbn [indexed mapM expand_each]. rewrite <- IH.
  destruct (render body (loopContext context item i len)) as [[out log1]|]; [|reflexivity].
  cbn [bindM].
  destruct (mapM _ (indexed (S i) l)) as [[ys log2]|]; [|reflexivity].
  cbn [bindM ret]. rewrite join_empty_cons, !app_nil_r. reflexivity.
Qed.

(** C6.  The callback of the loop stage, on the tag [{{#each variable}}body{{/each}}]:
    when the path resolves to an array the tag expands to the body rendered
    by [render] once per element, in order, under the loop-local context, the
    results end to end; to anything else, to the empty text.  In the
    loop-local context the metadata keys come first, then the keys of the
    element, then those of the outer context.  The three examples of the
    specification. *)
Theorem C6_each_expansion (helpers : TemplateHelpers) (context : value)
    (m : string) (caps : captures) :
  (forall l, getNestedValue context (trim (group 1 caps)) = VArr l ->
     eachCallback (render helpers) context m caps
     = expand_each (render helpers) (group 2 caps) context (length l) 0 l)
  /\ (isArray (getNestedValue context (trim (group 1 caps))) = false ->
        eachCallback (render helpers) context m caps = Some ("", []))
  /\ (forall item index len k,
        get (loopContext context item index len) k = loop_lookup context item index len k)
  /\ (forall template,
        render helpers template context
        = (output <- lift (processConditionals template context) ;;
           output <- replaceM eachRegex (eachCallback (render helpers) context) output ;;
           output <- processHelpers helpers output context ;;
           ret (processVariables output context)))
  /\ render helpers each_names items_a_b = Some ("a-b-", [])
  /\ render helpers each_names items_empty = Some ("", [])
  /\ render helpers each_names items_absent = Some ("", []).
Proof.
  split; [|split; [|split; [|split; [|split; [|split]]]]].
  - intros l Hl. unfold eachCallback. rewrite Hl. apply eachCallback_array.
  - intros Hn. unfold eachCallback.
    destruct (getNestedValue context (trim (group 1 caps))); try reflexivity.
    discriminate.
  - intros. apply loopContext_lookup.
  - intros. apply render_unfold.
  - vm_compute. reflexivity.
  - vm_compute. reflexivity.
  - vm_compute. reflexivity.
Qed.

Lemma C6_each_expansion_witness :
  eachCallback (render (defaultHelpers 2025)) items_a_b
    "{{#each items}}{{name}}-{{/each}}" [(2, "{{name}}-"); (1, "items")]
  = Some ("a-b-", [])
  /\ eachCallback (render (defaultHelpers 2025)) items_absent
       "{{#each items}}{{name}}-{{/each}}" [(2, "{{name}}-"); (1, "items")]
     = Some ("", []).
Proof.
  split.
  - rewrite (proj1 (C6_each_expansion (defaultHelpers 2025) items_a_b
               "{{#each items}}{{name}}-{{/each}}" [(2, "{{name}}-"); (1, "items")])
               [VObj [("name", VStr "a")]; VObj [("name", VStr "b")]] eq_refl).
    vm_compute. reflexivity.
  - apply (proj1 (proj2 (C6_each_expansion (defaultHelpers 2025) items_absent
               "{{#each items}}{{name}}-{{/each}}" [(2, "{{name}}-"); (1, "items")]))).
    reflexivity.
Defined.

(** * The [translate] helper *)

Lemma defaultHelpers_translate (year : Z) :
  defaultHelpers year !! "translate" = Some (HFun translate_helper).
Proof. vm_compute. reflexivity. Qed.

Lemma defaultHelpers_t (year : Z) :
  defaultHelpers year !! "t" = Some (HCall "translate").
Proof. vm_compute. reflexivity. Qed.


Lemma invoke_t (year : Z) (context : value) (key : string) :
  invoke (defaultHelpers year) (HCall "translate") context [key]
  = translate_helper context [key].
Proof.
  unfold invoke.
  replace (size (defaultHelpers year)) with 12 by (vm_compute; reflexivity).
  cbn [call]. rewrite defaultHelpers_translate. reflexivity.
Qed.

(** [translation || key]: the key comes back whenever the dictionary or the
    entry is falsy. *)
Lemma translate_falls_back (props : list (string * value)) (key : string) :
  truthy (get (VObj props) "localeData") = false
  \/ truthy (getNestedValue (get (VObj props) "localeData") key) = false ->
  translate_helper (VObj props) [key] = Ok (VStr key).
Proof.
  intros H. unfold translate_helper. cbn [member JS.bind arg nth_error as_string].
  destruct (truthy (get (VObj props) "localeData")) eqn:Hld; cbn [negb]; [|reflexivity].
  destruct H as [H|H]; [discriminate|].
  unfold or_else. now rewrite H.
Qed.

(** The helper stage and the variable stage on a tag that calls [translate]
    or [t] when the helper gives the key back. *)
Lemma render_translate_key (year : Z) (context : value) (tag name key : string) :
  test ifRegex tag = false ->
  test eachRegex tag = false ->
  scan helperRegex 0 tag = [Match tag [(2, key); (1, name)]] ->
  (exists helper, defaultHelpers year !! name = Some helper
     /\ invoke (defaultHelpers year) helper context (map trim (split "," key)) = Ok (VStr key)) ->
  test varRegex key = false ->
  render (defaultHelpers year) tag context = Some (key, []).
Proof.
  intros H1 H2 H3 (helper & Hl & Hi) H4. rewrite render_unfold.
  rewrite processConditionals_no_match by assumption. cbn [lift ret bindM].
  unfold processLoops. rewrite replaceM_no_match by assumption. cbn [ret bindM].
  unfold processHelpers, replaceM. rewrite H3. cbn [glueM].
  unfold helperCallback. cbn [group capture Nat.eqb]. rewrite Hl, Hi.
  cbn [ret bindM toString]. rewrite append_nil_r.
  unfold processVariables. rewrite replace_no_match by assumption. reflexivity.
Qed.



(** C10.  [translate], and [t], return the key itself when the entry the
    key leads to is falsy: the empty string, 0, false and null are; an entry
    that is the empty string renders as its key. *)
Theorem C10_translate_falsy (year : Z) (props : list (string * value)) (key : string) :
  let context := VObj props in
  let localeData := get context "localeData" in
  truthy localeData = true ->
  truthy (getNestedValue localeData key) = false ->
  invoke (defaultHelpers year) (HFun translate_helper) context [key] = Ok (VStr key)
  /\ invoke (defaultHelpers year) (HCall "translate") context [key] = Ok (VStr key)
  /\ truthy (VStr "") = false /\ truthy (VNum 0) = false
  /\ truthy (VBool false) = false /\ truthy VNull = false
  /\ (key = "greeting" ->
      render (defaultHelpers year) "{{translate:greeting}}" context = Some ("greeting", [])
      /\ render (defaultHelpers year) "{{t:greeting}}" context = Some ("greeting", [])).
Proof.
  intros context localeData _ H.
  assert (Hf : translate_helper context [key] = Ok (VStr key)).
  { apply translate_falls_back. now right. }
  split; [exact Hf|].
  split; [now rewrite invoke_t|].
  repeat (split; [reflexivity|]).
  intros ->. split.
  - apply (render_translate_key year context _ "translate" "greeting");
      try (vm_compute; reflexivity).
    exists (HFun translate_helper). split; [apply defaultHelpers_translate | exact Hf].
  - apply (render_translate_key year context _ "t" "greeting");
      try (vm_compute; reflexivity).
    exists (HCall "translate"). split; [apply defaultHelpers_t|].
    change (map trim (split "," "greeting")) with ["greeting"].
    now rewrite invoke_t.
Qed.

Lemma C10_translate_falsy_witness :
  render (defaultHelpers 2025) "{{translate:greeting}}"
    (VObj [("localeData", VObj [("greeting", VStr ""); ("bye", VStr "Bye")])])
  = Some ("greeting", []).
Proof.
  apply (C10_translate_falsy 2025
           [("localeData", VObj [("greeting", VStr ""); ("bye", VStr "Bye")])] "greeting");
    reflexivity.
Defined.

(** * Tags without a colon *)








(** * The loop metadata *)

(** C9 as stated fails: a helper that resolves its argument as a path reads
    the metadata keys.  Inside a loop over two elements, [{{json:@index}}]
    renders the two indices, [{{json:@first}}] and [{{json:@last}}] the two
    flags. *)
Lemma C9_metadata_reached_by_json :
  render (defaultHelpers 2025) "{{#each items}}{{json:@index}}{{/each}}" two_items
  = Some ("01", [])
  /\ render (defaultHelpers 2025)
       "{{#each items}}{{json:@first}},{{json:@last}};{{/each}}" two_items
     = Some ("true,false;false,true;", []).
Proof. split; vm_compute; reflexivity. Qed.

(** C9, amended.  Every loop-local context holds the three metadata keys, and
    the bare tags [{{@index}}], [{{@first}}] and [{{@last}}] match no stage:
    [@] is in neither character class, so each of them renders as itself,
    whatever the helpers and the context, also as the body of a loop. *)
Theorem C9_metadata_tag_verbatim (helpers : TemplateHelpers) (context : value) :
  (forall item index len,
     get (loopContext context item index len) "@index" = VNum (Z.of_nat index)
     /\ get (loopContext context item index len) "@first" = VBool (index =? 0)
     /\ get (loopContext context item index len) "@last"
        = VBool (Z.of_nat index =? Z.of_nat len - 1)%Z)
  /\ word "@" = false /\ word_dot "@" = false
  /\ render helpers "{{@index}}" context = Some ("{{@index}}", [])
  /\ render helpers "{{@first}}" context = Some ("{{@first}}", [])
  /\ render helpers "{{@last}}" context = Some ("{{@last}}", [])
  /\ render helpers "{{#each items}}{{@index}}{{/each}}" two_items
     = Some ("{{@index}}{{@index}}", []).
Proof.
  split; [intros; repeat split; reflexivity|].
  split; [reflexivity|]. split; [reflexivity|].
  split; [apply render_plain; vm_compute; reflexivity|].
  split; [apply render_plain; vm_compute; reflexivity|].
  split; [apply render_plain; vm_compute; reflexivity|].
  vm_compute. reflexivity.
Qed.

(** * Helpers that fail *)


Lemma glueM_app (f : string -> captures -> M string) (before after : list segment)
    (m : string) (caps : captures) (out1 out2 r : string) (log1 log2 log : list diagnostic) :
  glueM f before = Some (out1, log1) ->
  f m caps = Some (r, log) ->
  glueM f after = Some (out2, log2) ->
  glueM f (before ++ Match m caps :: after) = Some (out1 +:+ r +:+ out2, log1 ++ log ++ log2).
Proof.
  revert out1 log1. induction before as [|[c|m' caps'] before IH]; intros out1 log1 H1 Hm H2.
  - inversion H1; subst. cbn [app glueM]. rewrite Hm, H2. cbn [bindM ret].
    now rewrite app_nil_r.
  - cbn [app glueM] in *.
    destruct (glueM f before) as [[o l]|] eqn:Hb; [|discriminate].
    cbn [bindM ret] in H1. inversion H1; subst.
    rewrite (IH o l eq_refl Hm H2). cbn [bindM ret]. now rewrite !app_nil_r.
  - cbn [app glueM] in *.
    destruct (f m' caps') as [[r' l']|]; [|discriminate].
    destruct (glueM f before) as [[o l]|] eqn:Hb; [|discriminate].
    cbn [bindM ret] in H1. inversion H1; subst.
    rewrite (IH o l eq_refl Hm H2). cbn [bindM ret].
    rewrite !app_nil_r, append_assoc, <- !app_assoc. reflexivity.
Qed.


Lemma helper_tag_app (name args post : string) :
  helper_tag name args +:+ post = "{{" +:+ name +:+ ":" +:+ args +:+ "}}" +:+ post.
Proof.
  unfold helper_tag. rewrite append_assoc. cbn [String.append].
  rewrite !append_assoc. cbn [String.append]. rewrite !append_assoc. reflexivity.
Qed.




(** * Templates without tags *)

Lemma startsWith_app_l (s p q : string) :
  startsWith s (p +:+ q) = true -> startsWith s p = true.
Proof.
  revert s; induction p as [|a p IH]; intros s H; [now destruct s|].
  destruct s as [|b s]; [discriminate|]. cbn [String.append startsWith] in *.
  apply andb_prop in H as [H1 H2]. rewrite H1. now apply IH.
Qed.

(** A pattern that begins with two opening braces matches nowhere in a text
    that has no two opening braces side by side. *)
Lemma test_needs_opening (l : string) (r : regex) (s : string) :
  includes s "{{" = false -> test (Lit ("{{" +:+ l) >> r) s = false.
Proof.
  induction s as [|c s IH]; intros H.
  - reflexivity.
  - cbn [includes] in H. apply orb_false_elim in H as [H1 H2].
    rewrite test_cons, exec_lit_mismatch; [now apply IH|].
    destruct (startsWith (String c s) ("{{" +:+ l)) eqn:E; [|reflexivity].
    apply startsWith_app_l in E. congruence.
Qed.

(** X1.  A template in which no two opening braces stand side by side
    renders as itself and writes nothing to the console: every pattern of
    the engine begins with them.  This is the test [includes('{{')] by which
    [translatePageConfig] decides not to render a value. *)
Theorem X1_render_without_tags (helpers : TemplateHelpers) (template : string)
    (context : value) :
  includes template "{{" = false ->
  render helpers template context = Some (template, []).
Proof.
  intros H. apply render_plain.
  - apply (test_needs_opening "#if"), H.
  - apply (test_needs_opening "#each"), H.
  - apply (test_needs_opening ""), H.
  - apply (test_needs_opening ""), H.
Qed.

Lemma X1_render_without_tags_witness :
  render (defaultHelpers 2025) "<h1>Price: {5} } {</h1>" (VObj [])
  = Some ("<h1>Price: {5} } {</h1>", []).
Proof. apply X1_render_without_tags. reflexivity. Defined.

(** * Dotted paths *)

Lemma split_nonempty (sep : ascii) (s : string) : split sep s <> [].
Proof.
  induction s as [|c s IH]; simpl; [discriminate|].
  destruct (Ascii.eqb c sep); [discriminate|].
  destruct (split sep s); discriminate.
Qed.

Lemma split_app (sep : ascii) (a b : string) :
  split sep (a +:+ String sep b) = split sep a ++ split sep b.
Proof.
  induction a as [|c a IH]; cbn [String.append split].
  - now rewrite Ascii.eqb_refl.
  - rewrite IH. destruct (Ascii.eqb c sep); [reflexivity|].
    pose proof (split_nonempty sep a) as Hne.
    destruct (split sep a) as [|h t]; [congruence | reflexivity].
Qed.

Lemma fold_optGet_undefined (keys : list string) :
  fold_left optGet keys VUndefined = VUndefined.
Proof. induction keys as [|k keys IH]; simpl; auto. Qed.

Lemma getNestedValue_nothing (v : value) (path : string) :
  v = VUndefined \/ v = VNull -> getNestedValue v path = VUndefined.
Proof.
  intros Hv. unfold getNestedValue.
  pose proof (split_nonempty "." path) as Hne.
  destruct (split "." path) as [|k keys]; [congruence|].
  cbn [fold_left]. destruct Hv as [-> | ->]; apply fold_optGet_undefined.
Qed.

(** X2.  A dotted path is walked key by key: the value at [a.b] is the value
    at [b] in the value at [a], and it is undefined as soon as the value at
    [a] is undefined or null, whatever [b] is. *)
Theorem X2_getNestedValue_compose (obj : value) (a b : string) :
  getNestedValue obj (a +:+ "." +:+ b) = getNestedValue (getNestedValue obj a) b
  /\ (getNestedValue obj a = VUndefined \/ getNestedValue obj a = VNull ->
      getNestedValue obj (a +:+ "." +:+ b) = VUndefined).
Proof.
  assert (H : getNestedValue obj (a +:+ "." +:+ b)
              = getNestedValue (getNestedValue obj a) b).
  { unfold getNestedValue. change ("." +:+ b) with (String "." b).
    now rewrite split_app, fold_left_app. }
  split; [exact H|]. intros Hv. rewrite H. now apply getNestedValue_nothing.
Qed.

Lemma X2_getNestedValue_compose_witness :
  getNestedValue (VObj [("page", VObj [("title", VStr "Home")])]) ("page" +:+ "." +:+ "title")
  = VStr "Home"
  /\ getNestedValue (VObj [("page", VNull)]) ("page" +:+ "." +:+ "title") = VUndefined.
Proof.
  split.
  - rewrite (proj1 (X2_getNestedValue_compose _ _ _)). reflexivity.
  - apply (proj2 (X2_getNestedValue_compose _ _ _)). right. reflexivity.
Defined.

(** * What the conditional stage leaves *)

Lemma conditionalsLoop_settled (context : value) :
  forall fuel output previousOutput out,
  (String.eqb output previousOutput = true -> test ifRegex output = false) ->
  conditionalsLoop fuel output previousOutput context = Some out ->
  test ifRegex out = false.
Proof.
  induction fuel as [|fuel IH]; intros output prev out Hinv H; simpl in H.
  - destruct (String.eqb output prev) eqn:E; simpl in H.
    + inversion H; subst. now apply Hinv.
    + destruct (test ifRegex output) eqn:T; [discriminate|]. now inversion H; subst.
  - destruct (String.eqb output prev) eqn:E; simpl in H.
    + inversion H; subst. now apply Hinv.
    + destruct (test ifRegex output) eqn:T; [|now inversion H; subst].
      eapply IH; [|exact H]. intros Heq. exfalso.
      apply String.eqb_eq in Heq.
      pose proof (conditionals_pass_shorter context output T) as Hs.
      rewrite Heq in Hs. lia.
Qed.

(** X3.  The conditional stage ends with a text in which the conditional
    pattern matches nowhere: no block with both its tags is left for the
    stages behind it, and none for the [render] of a loop body. *)
Theorem X3_conditionals_settled (template : string) (context : value) :
  exists out,
    processConditionals template context = Some out
    /\ test ifRegex out = false
    /\ processConditionals out context = Some out.
Proof.
  destruct (processConditionals_total template context) as (out & H & _).
  assert (Ht : test ifRegex out = false).
  { eapply conditionalsLoop_settled; [|exact H].
    intros Heq. apply String.eqb_eq in Heq. subst. reflexivity. }
  exists out. split; [exact H|]. split; [exact Ht|].
  now apply processConditionals_no_match.
Qed.

(** * The alias [t] *)

Lemma call_HCall (fuel : nat) (helpers : TemplateHelpers) (target : string)
    (fn : value -> list string -> result value) (context : value) (args : list string) :
  fuel <> 0 ->
  helpers !! target = Some (HFun fn) ->
  call fuel helpers (HCall target) context args = fn context (firstn 1 args).
Proof.
  intros Hf H. destruct fuel as [|n]; [congruence|].
  cbn [call]. rewrite H. now destruct n.
Qed.

Lemma invoke_HCall (helpers : TemplateHelpers) (target : string)
    (fn : value -> list string -> result value) (context : value) (args : list string) :
  helpers !! target = Some (HFun fn) ->
  invoke helpers (HCall target) context args = fn context (firstn 1 args).
Proof.
  intros H. unfold invoke. apply call_HCall; [|exact H].
  intros Hs. apply map_size_empty_inv in Hs. subst.
  unfold TemplateHelpers in H. rewrite lookup_empty in H. discriminate.
Qed.

(** X4.  [t] looks [translate] up in the table when it runs: after a helper
    is registered under [translate], whatever the table held before, [t]
    calls that helper, and hands it the first argument only. *)
Theorem X4_t_follows_translate (helpers : TemplateHelpers)
    (fn : value -> list string -> result value) (context : value) (args : list string) :
  invoke (registerHelper "translate" (HFun fn) helpers) (HCall "translate") context args
  = fn context (firstn 1 args).
Proof. apply invoke_HCall. unfold registerHelper. apply lookup_insert_eq. Qed.

(** * Slashes in paths *)

Lemma endsWith_app_slash (s : string) : endsWith (s +:+ "/") "/" = true.
Proof.
  unfold endsWith. rewrite length_app. cbn [String.length].
  replace (String.length s + 1 - 1) with (String.length s) by lia.
  rewrite drop_app_exact. destruct (String.length s + 1) eqn:E; [lia | reflexivity].
Qed.

Lemma slice_app_slash (s : string) : slice_0_minus_1 (s +:+ "/") = s.
Proof.
  unfold slice_0_minus_1. rewrite length_app. cbn [String.length].
  replace (String.length s + 1 - 1) with (String.length s) by lia.
  apply take_app_exact.
Qed.

Lemma endsWith_cons (c : ascii) (s : string) :
  s <> "" -> endsWith (String c s) "/" = endsWith s "/".
Proof.
  intros Hs. destruct s as [|d s]; [congruence|].
  unfold endsWith. cbn [String.length Nat.leb Nat.sub drop].
  now rewrite Nat.sub_0_r.
Qed.

Lemma app_slash_not_root (c : ascii) (s : string) :
  String.eqb (String c s +:+ "/") "/" = false.
Proof.
  cbn [String.append String.eqb]. destruct (Ascii.eqb c "/"); [|reflexivity].
  now destruct s.
Qed.

(** X5.  The [url] helper reads a path with or without its leading slash,
    and with or without one trailing slash, as the same path. *)
Theorem X5_url_slashes (context : value) (path : string) :
  (startsWith path "/" = false ->
   url_helper context ["/" +:+ path] = url_helper context [path])
  /\ (endsWith path "/" = false ->
      url_helper context [path +:+ "/"] = url_helper context [path]).
Proof.
  split; intros H; unfold url_helper;
    destruct (member context "baseUrl") as [b|]; cbn [JS.bind]; try reflexivity;
    destruct (member context "langPrefix") as [l|]; cbn [JS.bind]; try reflexivity;
    cbn [arg nth_error as_string JS.bind]; do 3 f_equal.
  - rewrite H. cbn [String.append startsWith]. rewrite Ascii.eqb_refl.
    now destruct path.
  - destruct path as [|c p].
    + reflexivity.
    + change (String c p +:+ "/") with (String c (p +:+ "/")).
      cbn [startsWith]. destruct (Ascii.eqb "/" c) eqn:Ec; cbn [andb].
      * assert (startsWith (p +:+ "/") "" = true) as -> by now destruct (p +:+ "/").
        assert (startsWith p "" = true) as -> by now destruct p.
        change (String c (p +:+ "/")) with (String c p +:+ "/").
        rewrite app_slash_not_root, endsWith_app_slash, slice_app_slash, H.
        cbn [negb andb]. now rewrite andb_false_r.
      * change ("/" +:+ String c (p +:+ "/")) with (("/" +:+ String c p) +:+ "/").
        change (("/" +:+ String c p) +:+ "/") with (String "/" (String c p) +:+ "/") at 1.
        rewrite app_slash_not_root, endsWith_app_slash, slice_app_slash.
        change ("/" +:+ String c p) with (String "/" (String c p)).
        rewrite endsWith_cons by discriminate. rewrite H.
        cbn [negb andb]. now rewrite andb_false_r.
Qed.

Lemma X5_url_slashes_witness :
  url_helper (test_context "prefix" "de" "/de" "") ["/" +:+ "about"]
  = url_helper (test_context "prefix" "de" "/de" "") ["about"]
  /\ url_helper (test_context "prefix" "de" "/de" "") ["/about" +:+ "/"]
     = url_helper (test_context "prefix" "de" "/de" "") ["/about"].
Proof.
  split.
  - apply (proj1 (X5_url_slashes _ "about")). reflexivity.
  - apply (proj2 (X5_url_slashes _ "/about")). reflexivity.
Defined.

(** X6.  The [active] helper reads its path with or without a trailing
    slash as the same path, whatever the classes that follow it. *)
Theorem X6_active_trailing_slash (context : value) (path : string) (classes : list string) :
  endsWith path "/" = false ->
  active_helper context ((path +:+ "/") :: classes) = active_helper context (path :: classes).
Proof.
  intros H. unfold active_helper.
  destruct (member context "activeNav") as [nav|]; cbn [JS.bind]; [|reflexivity].
  destruct (if truthy nav then Ok nav else member context "slug") as [v|];
    cbn [JS.bind]; [|reflexivity].
  cbn [arg nth_error as_string JS.bind]. now rewrite endsWith_app_slash, H.
Qed.

Lemma X6_active_trailing_slash_witness :
  active_helper (VObj [("slug", VStr "about")]) [("/about" +:+ "/"); "on"]
  = active_helper (VObj [("slug", VStr "about")]) ["/about"; "on"].
Proof. apply X6_active_trailing_slash. reflexivity. Defined.

(** * The current language *)

Lemma lower_char_idempotent (c : ascii) : lower_char (lower_char c) = lower_char c.
Proof. destruct c as [[] [] [] [] [] [] [] []]; vm_compute; reflexivity. Qed.

Lemma toLowerCase_idempotent (s : string) : toLowerCase (toLowerCase s) = toLowerCase s.
Proof.
  induction s as [|c s IH]; simpl; [reflexivity|].
  now rewrite lower_char_idempotent, IH.
Qed.

(** X7.  [langActive] compares without regard to case: the language as
    written and the language in lower case give the same answer. *)
Theorem X7_langActive_case (context : value) (lang : string) (classes : list string) :
  langActive_helper context (toLowerCase lang :: classes)
  = langActive_helper context (lang :: classes).
Proof.
  unfold langActive_helper.
  destruct (currentLang_of context) as [v|]; cbn [JS.bind]; [|reflexivity].
  destruct (as_string v) as [current|]; cbn [JS.bind]; [|reflexivity].
  cbn [arg nth_error as_string JS.bind]. now rewrite toLowerCase_idempotent.
Qed.

(** X8.  What the [currentLang] helper returns is never falsy: the language
    of the context when there is one, else the default locale of the
    configuration when there is one, else [de].  It throws only when the
    context has no language and no configuration to read. *)
Theorem X8_currentLang_truthy (context : value) (args : list string) :
  (forall v, currentLang_helper context args = Ok v -> truthy v = true)
  /\ (forall props config,
        context = VObj props -> assoc "config" props = VObj config ->
        exists v, currentLang_helper context args = Ok v).
Proof.
  unfold currentLang_helper, currentLang_of. split.
  - intros v.
    destruct (member context "currentLang") as [lang|]; cbn [JS.bind]; [|discriminate].
    destruct (truthy lang) eqn:Hl; [now intros [= <-]|].
    destruct (member context "config") as [config|]; cbn [JS.bind]; [|discriminate].
    destruct (member config "i18n") as [i18n|]; cbn [JS.bind]; [|discriminate].
    intros [= <-]. unfold or_else.
    destruct (truthy (optGet i18n "defaultLocale")) eqn:Hd; [exact Hd | reflexivity].
  - intros props config -> Hc. cbn [member JS.bind get].
    destruct (truthy (assoc "currentLang" props)); [eexists; reflexivity|].
    rewrite Hc. cbn [member JS.bind]. eexists; reflexivity.
Qed.

Lemma X8_currentLang_truthy_witness :
  exists v, currentLang_helper (VObj [("config", VObj []); ("currentLang", VStr "")]) [] = Ok v
            /\ truthy v = true.
Proof.
  destruct (proj2 (X8_currentLang_truthy
                     (VObj [("config", VObj []); ("currentLang", VStr "")]) [])
              [("config", VObj []); ("currentLang", VStr "")] [] eq_refl eq_refl) as [v Hv].
  exists v. split; [exact Hv|].
  exact (proj1 (X8_currentLang_truthy _ _) v Hv).
Defined.

(** * Matching a block whose parts are known *)

Lemma hd_error_app {A : Type} (l1 l2 : list A) (x : A) :
  hd_error l1 = Some x -> hd_error (l1 ++ l2) = Some x.
Proof. destruct l1; [discriminate | auto]. Qed.

Lemma hd_error_skip {A : Type} (l1 l2 : list A) (x : A) :
  l1 = [] -> hd_error l2 = Some x -> hd_error (l1 ++ l2) = Some x.
Proof. now intros ->. Qed.

Lemma lazy_head (cls : ascii -> bool) (s : string) : exists l, lazy cls s = s :: l.
Proof. destruct s; simpl; eauto. Qed.

Lemma lazy_any_app (a b : string) : lazy any (a +:+ b) = fronts a b ++ lazy any b.
Proof.
  induction a as [|c a IH]; [reflexivity|].
  cbn [String.append lazy fronts any app]. now rewrite IH.
Qed.

Lemma fronts_In (a b t : string) :
  occurs "{" a = false -> In t (fronts a b) ->
  exists c t', t = String c t' /\ c <> "{"%char.
Proof.
  induction a as [|c a IH]; cbn [fronts occurs]; intros Ho H; [destruct H|].
  apply orb_false_elim in Ho as [Hc Ho].
  destruct H as [<-|H]; [|now apply IH].
  exists c, (a +:+ b). split; [reflexivity|]. now apply Ascii.eqb_neq.
Qed.

Lemma group_lazy_list (n : nat) (s : string) (caps : captures) (l : list string) :
  map (fun '(t, c) => (t, (n, take (String.length s - String.length t) s) :: c))
      (map (fun t => (t, caps)) l)
  = map (fun t => (t, (n, take (String.length s - String.length t) s) :: caps)) l.
Proof. induction l as [|t l IH]; cbn [map]; congruence. Qed.

(** [([\s\S]*?)] over a text [a] without an opening brace, before a pattern
    that wants one: the group binds [a], the pattern goes on behind it. *)
Lemma group_lazy_first (n : nat) (r : regex) (a b : string) (caps : captures)
    (x : string * captures) :
  occurs "{" a = false ->
  (forall c t caps', c <> "{"%char -> rmatch r (String c t) caps' = []) ->
  hd_error (rmatch r b ((n, a) :: caps)) = Some x ->
  hd_error (rmatch (Group n (StarLazy any) >> r) (a +:+ b) caps) = Some x.
Proof.
  intros Ha Hr Hx. cbn [rmatch].
  rewrite (group_lazy_list n (a +:+ b) caps), lazy_any_app, map_app, flat_map_app.
  apply hd_error_skip.
  - generalize (fun t => fronts_In a b t Ha). generalize (fronts a b).
    intros l Hl. induction l as [|t l IH]; [reflexivity|].
    cbn [map flat_map].
    destruct (Hl t (or_introl eq_refl)) as (c & t' & -> & Hc).
    rewrite Hr by assumption. apply IH. intros u Hu. apply Hl. now right.
  - destruct (lazy_head any b) as [l ->]. cbn [map flat_map].
    apply hd_error_app.
    replace (String.length (a +:+ b) - String.length b) with (String.length a)
      by (rewrite length_app; lia).
    now rewrite take_app_exact.
Qed.

Lemma lit_wants_brace (l : string) (c : ascii) (t : string) (caps : captures) :
  c <> "{"%char -> rmatch (Lit (String "{" l)) (String c t) caps = [].
Proof.
  intros Hc. cbn [rmatch startsWith].
  assert (Ascii.eqb "{" c = false) as -> by (apply Ascii.eqb_neq; congruence).
  reflexivity.
Qed.

Lemma opt_else_wants_brace (r : regex) (l : string) (c : ascii) (t : string)
    (caps : captures) :
  c <> "{"%char ->
  rmatch (Opt (Lit "{{#else}}" >> r) >> Lit (String "{" l)) (String c t) caps = [].
Proof.
  intros Hc.
  assert (E : Ascii.eqb "{" c = false) by (apply Ascii.eqb_neq; congruence).
  cbn [rmatch startsWith]. rewrite E. cbn [andb flat_map app startsWith].
  rewrite E. reflexivity.
Qed.

(** [[cls]+] over one character of the class, before a text the run stops
    at. *)
Lemma plus_single (cls : ascii -> bool) (c : ascii) (b : string) (caps : captures) :
  cls c = true -> stops cls b = true ->
  rmatch (Plus cls) (String c b) caps = [(b, caps)].
Proof.
  intros Hc Hb. cbn [rmatch]. rewrite Hc.
  change b with ("" +:+ b) at 1. now rewrite greedy_app.
Qed.

Lemma word_dot_not_brace (s : string) : every word_dot s = true -> every not_brace s = true.
Proof.
  induction s as [|c s IH]; simpl; auto. intros H.
  apply andb_prop in H as [H1 H2]. rewrite IH by assumption.
  destruct c as [[] [] [] [] [] [] [] []]; try reflexivity; discriminate.
Qed.

Lemma word_dot_not_space (c : ascii) : word_dot c = true -> is_space c = false.
Proof. destruct c as [[] [] [] [] [] [] [] []]; vm_compute; congruence. Qed.

Lemma trimEnd_word_dot (s : string) : every word_dot s = true -> trimEnd s = s.
Proof.
  induction s as [|c s IH]; simpl; auto. intros H.
  apply andb_prop in H as [H1 H2]. rewrite IH by assumption.
  rewrite (word_dot_not_space c H1). now destruct s.
Qed.

Lemma trim_word_dot (s : string) : every word_dot s = true -> trim s = s.
Proof.
  intros H. unfold trim. destruct s as [|c s]; [reflexivity|].
  cbn [trimStart]. pose proof H as H'. simpl in H'. apply andb_prop in H' as [Hc _].
  rewrite (word_dot_not_space c Hc). now apply trimEnd_word_dot.
Qed.

Lemma rmatch_seq_single (r1 r2 : regex) (s t : string) (caps c : captures) :
  rmatch r1 s caps = [(t, c)] -> rmatch (r1 >> r2) s caps = rmatch r2 t c.
Proof. intros H. cbn [rmatch]. rewrite H. cbn [flat_map]. apply app_nil_r. Qed.

Lemma rmatch_seq_assoc (r1 r2 r3 : regex) (s : string) (caps : captures) :
  rmatch ((r1 >> r2) >> r3) s caps = rmatch (r1 >> (r2 >> r3)) s caps.
Proof.
  cbn [rmatch]. induction (rmatch r1 s caps) as [|[t c] l IH]; [reflexivity|].
  cbn [flat_map]. now rewrite flat_map_app, IH.
Qed.

Lemma rmatch_opt_taken (e k : regex) (s : string) (caps : captures) (x : string * captures) :
  hd_error (rmatch (e >> k) s caps) = Some x ->
  hd_error (rmatch (Opt e >> k) s caps) = Some x.
Proof. intros H. cbn [rmatch] in *. rewrite flat_map_app. now apply hd_error_app. Qed.

Lemma rmatch_opt_skipped (e k : regex) (s : string) (caps : captures) :
  rmatch e s caps = [] -> rmatch (Opt e >> k) s caps = rmatch k s caps.
Proof. intros H. cbn [rmatch]. rewrite H. cbn [app flat_map]. apply app_nil_r. Qed.

Lemma rmatch_lit_exact (l post : string) (caps : captures) :
  rmatch (Lit l) (l +:+ post) caps = [(post, caps)].
Proof. cbn [rmatch]. now rewrite startsWith_app, drop_app_exact. Qed.

Lemma stops_word_dot (c : ascii) (s : string) :
  word_dot c = true -> stops is_space (String c s) = true.
Proof. intros H. cbn [stops]. now rewrite (word_dot_not_space c H). Qed.

Ltac flatten_app :=
  repeat first [rewrite append_assoc | progress cbn [String.append]].

(** The conditional pattern on a block with an else branch. *)
Lemma exec_ifRegex_else (name yes no post : string) :
  name <> "" -> every word_dot name = true ->
  occurs "{" yes = false -> occurs "{" no = false ->
  exec ifRegex (if_else_block name yes no +:+ post)
  = Some (post, [(3, no); (2, yes); (1, name)]).
Proof.
  intros Hne Hn Hy Hno. destruct name as [|c name]; [congruence|].
  pose proof (word_dot_not_brace _ Hn) as Hnb.
  simpl in Hn, Hnb. apply andb_prop in Hn as [Hc Hn]. apply andb_prop in Hnb as [Hcb Hnb].
  assert (if_else_block (String c name) yes no +:+ post
          = "{{#if" +:+ String " " (String c
              (name +:+ "}}" +:+ yes +:+ "{{#else}}" +:+ no +:+ "{{/if}}" +:+ post))) as ->.
  { unfold if_else_block. now flatten_app. }
  unfold exec, ifRegex. rewrite rmatch_lit_seq, startsWith_app, drop_app_exact.
  rewrite (rmatch_seq_single _ _ _ _ _ _
             (plus_single is_space " " _ [] eq_refl
                (stops_word_dot c _ Hc))).
  apply group_plus_first; [exact Hcb | exact Hnb | reflexivity|].
  rewrite rmatch_lit_seq, startsWith_app, drop_app_exact.
  apply group_lazy_first; [exact Hy | intros; now apply opt_else_wants_brace|].
  apply rmatch_opt_taken.
  rewrite rmatch_seq_assoc, rmatch_lit_seq, startsWith_app, drop_app_exact.
  apply group_lazy_first; [exact Hno | intros; now apply lit_wants_brace|].
  now rewrite rmatch_lit_exact.
Qed.

(** The conditional pattern on a block without an else branch. *)
Lemma exec_ifRegex_plain (name yes post : string) :
  name <> "" -> every word_dot name = true ->
  occurs "{" yes = false ->
  exec ifRegex (if_block name yes +:+ post) = Some (post, [(2, yes); (1, name)]).
Proof.
  intros Hne Hn Hy. destruct name as [|c name]; [congruence|].
  pose proof (word_dot_not_brace _ Hn) as Hnb.
  simpl in Hn, Hnb. apply andb_prop in Hn as [Hc Hn]. apply andb_prop in Hnb as [Hcb Hnb].
  assert (if_block (String c name) yes +:+ post
          = "{{#if" +:+ String " " (String c
              (name +:+ "}}" +:+ yes +:+ "{{/if}}" +:+ post))) as ->.
  { unfold if_block. now flatten_app. }
  unfold exec, ifRegex. rewrite rmatch_lit_seq, startsWith_app, drop_app_exact.
  rewrite (rmatch_seq_single _ _ _ _ _ _
             (plus_single is_space " " _ [] eq_refl
                (stops_word_dot c _ Hc))).
  apply group_plus_first; [exact Hcb | exact Hnb | reflexivity|].
  rewrite rmatch_lit_seq, startsWith_app, drop_app_exact.
  apply group_lazy_first; [exact Hy | intros; now apply opt_else_wants_brace|].
  rewrite rmatch_opt_skipped by reflexivity.
  now rewrite rmatch_lit_exact.
Qed.

(** The loop pattern on a loop block. *)
Lemma exec_eachRegex_block (path body post : string) :
  path <> "" -> every word_dot path = true ->
  occurs "{" body = false ->
  exec eachRegex (each_block path body +:+ post) = Some (post, [(2, body); (1, path)]).
Proof.
  intros Hne Hn Hy. destruct path as [|c path]; [congruence|].
  pose proof (word_dot_not_brace _ Hn) as Hnb.
  simpl in Hn, Hnb. apply andb_prop in Hn as [Hc Hn]. apply andb_prop in Hnb as [Hcb Hnb].
  assert (each_block (String c path) body +:+ post
          = "{{#each" +:+ String " " (String c
              (path +:+ "}}" +:+ body +:+ "{{/each}}" +:+ post))) as ->.
  { unfold each_block. now flatten_app. }
  unfold exec, eachRegex. rewrite rmatch_lit_seq, startsWith_app, drop_app_exact.
  rewrite (rmatch_seq_single _ _ _ _ _ _
             (plus_single is_space " " _ [] eq_refl
                (stops_word_dot c _ Hc))).
  apply group_plus_first; [exact Hcb | exact Hnb | reflexivity|].
  rewrite rmatch_lit_seq, startsWith_app, drop_app_exact.
  apply group_lazy_first; [exact Hy | intros; now apply lit_wants_brace|].
  now rewrite rmatch_lit_exact.
Qed.

(** * One tag in plain text *)

Lemma render_brace_free (helpers : TemplateHelpers) (template : string) (context : value) :
  occurs "{" template = false -> render helpers template context = Some (template, []).
Proof. intros H. apply render_plain; now apply (test_lit_needs "{"). Qed.

Lemma test_exec (r : regex) (s : string) (x : string * captures) :
  exec r s = Some x -> test r s = true.
Proof. intros H. destruct s; cbn [test]; now rewrite H. Qed.

Lemma glue_texts_app (f : string -> captures -> string) (a : string) (l : list segment) :
  glue f (texts a ++ l) = a +:+ glue f l.
Proof. induction a as [|c a IH]; cbn [texts app glue String.append]; congruence. Qed.

Lemma eqb_around_nonempty (before block after : string) :
  block <> "" -> String.eqb (before +:+ block +:+ after) "" = false.
Proof.
  intros H. destruct before; [|reflexivity]. destruct block; [congruence | reflexivity].
Qed.

(** The segments of plain text, one match of a pattern that begins with an
    opening brace, plain text. *)
Lemma scan_around (l : string) (r : regex) (before block after : string) (caps : captures) :
  occurs "{" before = false -> occurs "{" after = false -> block <> "" ->
  exec (Lit (String "{" l) >> r) (block +:+ after) = Some (after, caps) ->
  scan (Lit (String "{" l) >> r) 0 (before +:+ block +:+ after)
  = texts before ++ Match block caps :: texts after.
Proof.
  intros Hb Ha Hne He. rewrite scan_plain_prefix by assumption. f_equal.
  rewrite (scan_match_first _ _ _ _ Hne He). f_equal.
  apply scan_no_match. now apply (test_lit_needs "{").
Qed.

(** One conditional block in plain text: the first pass replaces it, and the
    text it leaves goes through the other stages as it is. *)
Lemma render_one_conditional (helpers : TemplateHelpers) (context : value)
    (before block after : string) (caps : captures) :
  occurs "{" before = false -> occurs "{" after = false -> block <> "" ->
  exec ifRegex (block +:+ after) = Some (after, caps) ->
  occurs "{" (ifCallback context block caps) = false ->
  render helpers (before +:+ block +:+ after) context
  = Some (before +:+ ifCallback context block caps +:+ after, []).
Proof.
  intros Hb Ha Hne He Hout.
  assert (Hfree : occurs "{" (before +:+ ifCallback context block caps +:+ after) = false).
  { now rewrite !occurs_app, Hb, Ha, Hout. }
  assert (Hc : processConditionals (before +:+ block +:+ after) context
               = Some (before +:+ ifCallback context block caps +:+ after)).
  { unfold processConditionals. rewrite conditionalsLoop_step.
    - unfold replace, ifRegex. rewrite (scan_around _ _ _ _ _ caps) by assumption.
      rewrite glue_texts_app. cbn [glue]. rewrite glue_texts.
      apply conditionalsLoop_stop. now apply (test_lit_needs "{").
    - now apply eqb_around_nonempty.
    - unfold ifRegex. rewrite test_plain_prefix by assumption.
      eapply test_exec. exact He. }
  rewrite render_unfold, Hc. cbn [lift ret bindM].
  unfold processLoops. rewrite replaceM_no_match by now apply (test_lit_needs "{").
  cbn [ret bindM].
  unfold processHelpers. rewrite replaceM_no_match by now apply (test_lit_needs "{").
  cbn [ret bindM].
  unfold processVariables. rewrite replace_no_match by now apply (test_lit_needs "{").
  reflexivity.
Qed.

(** X9.  A conditional block between texts without opening braces, on a
    condition that is a dotted path, with branches without opening braces:
    the block is replaced by its first branch when the condition holds, and
    otherwise by its else branch, or by nothing when it has none.  The rest
    of the text is untouched and nothing is written to the console. *)
Theorem X9_conditional_selects_branch (helpers : TemplateHelpers) (context : value)
    (before name yes no after : string) :
  occurs "{" before = false -> occurs "{" after = false ->
  name <> "" -> every word_dot name = true ->
  occurs "{" yes = false -> occurs "{" no = false ->
  render helpers (before +:+ if_else_block name yes no +:+ after) context
  = Some (before +:+ (if evaluateCondition name context then yes else no) +:+ after, [])
  /\ render helpers (before +:+ if_block name yes +:+ after) context
     = Some (before +:+ (if evaluateCondition name context then yes else "") +:+ after, []).
Proof.
  intros Hb Ha Hne Hn Hy Hno. split.
  - assert (Hcb : ifCallback context (if_else_block name yes no)
                    [(3, no); (2, yes); (1, name)]
                  = if evaluateCondition name context then yes else no).
    { unfold ifCallback. cbn [group capture Nat.eqb]. now rewrite trim_word_dot. }
    rewrite <- Hcb. apply render_one_conditional; try assumption.
    + unfold if_else_block. destruct name; discriminate.
    + now apply exec_ifRegex_else.
    + rewrite Hcb. now destruct (evaluateCondition _ _).
  - assert (Hcb : ifCallback context (if_block name yes) [(2, yes); (1, name)]
                  = if evaluateCondition name context then yes else "").
    { unfold ifCallback. cbn [group capture Nat.eqb]. now rewrite trim_word_dot. }
    rewrite <- Hcb. apply render_one_conditional; try assumption.
    + unfold if_block. destruct name; discriminate.
    + now apply exec_ifRegex_plain.
    + rewrite Hcb. now destruct (evaluateCondition _ _).
Qed.

Lemma X9_conditional_selects_branch_witness :
  render (defaultHelpers 2025)
    ("<p>" +:+ if_else_block "page.draft" "Draft" "Live" +:+ "</p>")
    (VObj [("page", VObj [("draft", VArr [])])])
  = Some ("<p>Live</p>", []).
Proof.
  apply (proj1 (X9_conditional_selects_branch (defaultHelpers 2025)
                 (VObj [("page", VObj [("draft", VArr [])])])
                 "<p>" "page.draft" "Draft" "Live" "</p>"
                 eq_refl eq_refl ltac:(discriminate) eq_refl eq_refl eq_refl)).
Defined.

(** * One loop in plain text *)

Lemma repeat_string_plain (n : nat) (s : string) :
  occurs "{" s = false -> occurs "{" (repeat_string n s) = false.
Proof.
  intros H. induction n as [|n IH]; cbn [repeat_string]; [reflexivity|].
  now rewrite occurs_app, H, IH.
Qed.

Lemma mapM_same {A : Type} (f : A -> M string) (y : string) (l : list A) :
  (forall x, f x = Some (y, [])) ->
  (parts <- mapM f l ;; ret (join "" parts)) = Some (repeat_string (length l) y, []).
Proof.
  intros Hf. induction l as [|x l IH]; [reflexivity|].
  cbn [mapM length repeat_string]. rewrite Hf. cbn [bindM].
  destruct (mapM f l) as [[ys log]|]; [|discriminate].
  cbn [bindM ret] in *. rewrite app_nil_r in IH. injection IH as H0 H1. subst log.
  now rewrite join_empty_cons, H0.
Qed.

Lemma length_indexed {A : Type} (l : list A) : forall i, length (indexed i l) = length l.
Proof. induction l as [|x l IH]; intros i; cbn [indexed length]; auto. Qed.

(** The text of a loop block holds no conditional. *)
Lemma each_block_no_conditional (before path body after : string) :
  occurs "{" before = false -> occurs "{" after = false ->
  every word_dot path = true -> occurs "{" body = false ->
  test ifRegex (before +:+ each_block path body +:+ after) = false.
Proof.
  intros Hb Ha Hp Hy. unfold ifRegex. rewrite test_plain_prefix by assumption.
  assert (each_block path body +:+ after
          = String "{" (String "{"
              (("#each " +:+ path +:+ "}}" +:+ body) +:+ "{{/each}}" +:+ after))) as ->.
  { unfold each_block. now flatten_app. }
  rewrite test_cons, exec_lit_mismatch by reflexivity.
  rewrite test_cons, exec_lit_mismatch by reflexivity.
  rewrite test_plain_prefix.
  - change ("{{/each}}" +:+ after) with ("{{" +:+ String "/" ("each}}" +:+ after)).
    apply test_other_opening; [discriminate | discriminate|].
    now rewrite occurs_app, Ha.
  - rewrite !occurs_app, Hy. rewrite (every_occurs word_dot "{" path Hp eq_refl).
    reflexivity.
Qed.

(** X10.  A loop block between texts without opening braces, over a dotted
    path, with a body without opening braces: the block is replaced by as
    many copies of the body as the array at the path has elements, and by
    nothing when the path leads to anything but an array. *)
Theorem X10_each_repeats_body (helpers : TemplateHelpers) (context : value)
    (before path body after : string) :
  occurs "{" before = false -> occurs "{" after = false ->
  path <> "" -> every word_dot path = true ->
  occurs "{" body = false ->
  render helpers (before +:+ each_block path body +:+ after) context
  = Some (before
          +:+ match getNestedValue context path with
              | VArr items => repeat_string (length items) body
              | _ => ""
              end
          +:+ after, []).
Proof.
  intros Hb Ha Hne Hp Hy.
  set (out := match getNestedValue context path with
              | VArr items => repeat_string (length items) body
              | _ => ""
              end).
  assert (Hout : occurs "{" out = false).
  { unfold out. destruct (getNestedValue context path); try reflexivity.
    now apply repeat_string_plain. }
  assert (Hcall : eachCallback (render helpers) context (each_block path body)
                    [(2, body); (1, path)] = Some (out, [])).
  { unfold eachCallback, out. cbn [group capture Nat.eqb].
    rewrite trim_word_dot by assumption.
    destruct (getNestedValue context path); try reflexivity.
    rewrite (mapM_same _ body).
    - now rewrite length_indexed.
    - intros [i x]. now apply render_brace_free. }
  assert (Hfree : occurs "{" (before +:+ out +:+ after) = false).
  { now rewrite !occurs_app, Hb, Ha, Hout. }
  rewrite render_unfold.
  rewrite processConditionals_no_match by now apply each_block_no_conditional.
  cbn [lift ret bindM].
  unfold processLoops, replaceM, eachRegex.
  rewrite (scan_around _ _ _ _ _ [(2, body); (1, path)]); try assumption.
  - rewrite (glueM_app _ _ _ _ _ before after out [] [] []
               (glueM_texts _ _) Hcall (glueM_texts _ _)).
    cbn [ret bindM app].
    unfold processHelpers. rewrite replaceM_no_match by now apply (test_lit_needs "{").
    cbn [ret bindM].
    unfold processVariables. rewrite replace_no_match by now apply (test_lit_needs "{").
    reflexivity.
  - unfold each_block. discriminate.
  - now apply exec_eachRegex_block.
Qed.

Lemma X10_each_repeats_body_witness :
  render (defaultHelpers 2025) ("<ul>" +:+ each_block "items" "<li/>" +:+ "</ul>") two_items
  = Some ("<ul><li/><li/></ul>", []).
Proof.
  apply (X10_each_repeats_body (defaultHelpers 2025) two_items "<ul>" "items" "<li/>" "</ul>");
    try reflexivity; discriminate.
Defined.

(** * One variable in plain text *)

Lemma greedy_run (cls : ascii -> bool) (s t : string) :
  In t (greedy cls s) -> exists p, s = p +:+ t /\ every cls p = true.
Proof.
  revert t; induction s as [|c s IH]; simpl; intros t H.
  - destruct H as [<-|[]]. now exists "".
  - destruct (cls c) eqn:Hc.
    + apply in_app_or in H as [H|[<-|[]]]; [|now exists ""].
      apply IH in H as (p & -> & Hp). exists (String c p). simpl. now rewrite Hc, Hp.
    + destruct H as [<-|[]]. now exists "".
Qed.

Lemma no_colon_behind_word (name post p t : string) :
  every word_dot name = true -> every word p = true ->
  name +:+ "}}" +:+ post = p +:+ t -> startsWith t ":" = false.
Proof.
  revert p. induction name as [|y name IH]; intros p Hn Hp E.
  - destruct p as [|x p]; cbn [String.append] in E.
    + now subst.
    + inversion E; subst. discriminate.
  - simpl in Hn. apply andb_prop in Hn as [Hy Hn].
    destruct p as [|x p]; cbn [String.append] in E.
    + subst. cbn [startsWith].
      destruct (Ascii.eqb_spec ":" y) as [<-|]; [discriminate | reflexivity].
    + inversion E; subst. simpl in Hp. apply andb_prop in Hp as [_ Hp].
      now apply (IH p).
Qed.

(** The helper pattern does not match a variable tag. *)
Lemma variable_tag_no_helper (name after : string) :
  name <> "" -> every word_dot name = true -> occurs "{" after = false ->
  test helperRegex ("{{" +:+ name +:+ "}}" +:+ after) = false.
Proof.
  intros Hne Hn Ha. destruct name as [|c name]; [congruence|].
  pose proof Hn as Hn'. simpl in Hn'. apply andb_prop in Hn' as [Hc Hn'].
  assert (Hc2 : Ascii.eqb c "{" = false).
  { destruct (Ascii.eqb_spec c "{"); [subst; discriminate | reflexivity]. }
  assert (Hc3 : Ascii.eqb "{" c = false).
  { destruct (Ascii.eqb_spec "{" c); [subst; discriminate | reflexivity]. }
  assert (Hw : occurs "{" (name +:+ "}}" +:+ after) = false).
  { rewrite !occurs_app, Ha. rewrite (every_occurs word_dot "{" name Hn' eq_refl).
    reflexivity. }
  change ("{{" +:+ String c name +:+ "}}" +:+ after)
    with (String "{" (String "{" (String c (name +:+ "}}" +:+ after)))).
  rewrite test_cons.
  assert (exec helperRegex (String "{" (String "{" (String c (name +:+ "}}" +:+ after))))
          = None) as ->.
  { unfold exec, helperRegex. rewrite rmatch_lit_seq.
    cbn [startsWith]. rewrite !Ascii.eqb_refl. cbn [andb String.length drop].
    rewrite rmatch_seq_nil; [reflexivity|].
    intros t caps Hin. rewrite rmatch_lit_seq.
    cbn [rmatch] in Hin. destruct (word c) eqn:Hwc; [|destruct Hin].
    apply in_map_iff in Hin as ([u d] & Hu & Hin). inversion Hu; subst.
    apply in_map_iff in Hin as (v & Hv & Hin). inversion Hv; subst.
    apply greedy_run in Hin as (p & Hp & Hcls).
    now rewrite (no_colon_behind_word name after p t Hn' Hcls Hp). }
  unfold helperRegex. rewrite test_cons, exec_lit_mismatch
    by (cbn [startsWith]; now rewrite !Ascii.eqb_refl, Hc3).
  apply (test_lit_needs "{"); [reflexivity|].
  cbn [occurs]. now rewrite Hc2, Hw.
Qed.

(** X11.  A variable tag on a dotted path, between texts without opening
    braces, is replaced by the value at the path: nothing for undefined and
    null, the string form of any other value.  The value is put in as it is:
    no stage reads it again. *)
Theorem X11_variable_in_text (helpers : TemplateHelpers) (context : value)
    (before name after : string) :
  occurs "{" before = false -> occurs "{" after = false ->
  name <> "" -> every word_dot name = true ->
  render helpers (before +:+ variable_tag name +:+ after) context
  = Some (before +:+ shown (getNestedValue context name) +:+ after, []).
Proof.
  intros Hb Ha Hne Hn.
  assert (Htag : variable_tag name +:+ after = "{{" +:+ name +:+ "}}" +:+ after).
  { unfold variable_tag. now flatten_app. }
  assert (Hblock : test ifRegex (variable_tag name +:+ after) = false
                   /\ test eachRegex (variable_tag name +:+ after) = false).
  { rewrite Htag. destruct name as [|c name]; [congruence|].
    pose proof Hn as Hn'. simpl in Hn'. apply andb_prop in Hn' as [Hc Hn'].
    assert (Hw : occurs "{" (name +:+ "}}" +:+ after) = false).
    { rewrite !occurs_app, Ha. rewrite (every_occurs word_dot "{" name Hn' eq_refl).
      reflexivity. }
    assert (Hc1 : "#"%char <> c) by (intros <-; discriminate).
    assert (Hc2 : c <> "{"%char) by (intros ->; discriminate).
    change ("{{" +:+ String c name +:+ "}}" +:+ after)
      with ("{{" +:+ String c (name +:+ "}}" +:+ after)).
    split; apply test_other_opening; assumption. }
  destruct Hblock as [Hif Heach].
  pose proof (variable_tag_no_helper name after Hne Hn Ha) as Hhelper.
  rewrite <- Htag in Hhelper.
  pose proof (exec_varRegex_tag name after Hne Hn) as He. rewrite <- Htag in He.
  rewrite render_unfold.
  rewrite processConditionals_no_match
    by (unfold ifRegex; rewrite test_plain_prefix by assumption; exact Hif).
  cbn [lift ret bindM].
  unfold processLoops.
  rewrite replaceM_no_match
    by (unfold eachRegex; rewrite test_plain_prefix by assumption; exact Heach).
  cbn [ret bindM].
  unfold processHelpers.
  rewrite replaceM_no_match
    by (unfold helperRegex; rewrite test_plain_prefix by assumption; exact Hhelper).
  cbn [ret bindM].
  unfold processVariables, replace, varRegex.
  rewrite (scan_around _ _ _ _ _ [(1, name)]); try assumption.
  - rewrite glue_texts_app. cbn [glue]. rewrite glue_texts.
    unfold varCallback. cbn [group capture Nat.eqb]. rewrite trim_word_dot by assumption.
    unfold shown. now destruct (getNestedValue context name).
  - unfold variable_tag. discriminate.
Qed.

Lemma X11_variable_in_text_witness :
  render (defaultHelpers 2025) ("<h1>" +:+ variable_tag "page.title" +:+ "</h1>")
    (VObj [("page", VObj [("title", VStr "{{url:/}}")])])
  = Some ("<h1>{{url:/}}</h1>", []).
Proof.
  apply (X11_variable_in_text (defaultHelpers 2025)
           (VObj [("page", VObj [("title", VStr "{{url:/}}")])])
           "<h1>" "page.title" "</h1>"); try reflexivity; discriminate.
Defined.

(** * One helper call in plain text *)

(** X12.  A helper tag between texts without opening braces, whose helper is
    registered and returns a value: the tag is replaced by the string form
    of the value, the helper having received the arguments cut at the commas
    and trimmed.  Nothing is written to the console.  (The result is taken
    without opening brace: the variable stage reads it.) *)
Theorem X12_helper_result_replaces_tag (helpers : TemplateHelpers) (context : value)
    (before name args after : string) (helper : TemplateHelper) (v : value) :
  occurs "{" before = false -> occurs "{" after = false ->
  name <> "" -> every word name = true ->
  args <> "" -> every not_brace args = true -> occurs "{" args = false ->
  helpers !! name = Some helper ->
  invoke helpers helper context (map trim (split "," args)) = Ok v ->
  occurs "{" (toString v) = false ->
  render helpers (before +:+ helper_tag name args +:+ after) context
  = Some (before +:+ toString v +:+ after, []).
Proof.
  intros Hb Hp Hne Hn Hae Ha Hao Hl Hi Hv.
  assert (Hrest : occurs "{" (":" +:+ args +:+ "}}" +:+ after) = false).
  { rewrite !occurs_app, Hao, Hp. reflexivity. }
  destruct (helper_tag_no_block name (":" +:+ args +:+ "}}" +:+ after) Hne Hn Hrest)
    as [Hif Heach].
  pose proof (exec_helperRegex_tag name args after Hne Hn Hae Ha) as He.
  rewrite <- helper_tag_app in Hif, Heach, He.
  assert (Hcall : helperCallback helpers context (helper_tag name args)
                    [(2, args); (1, name)] = Some (toString v, [])).
  { unfold helperCallback. cbn [group capture Nat.eqb]. now rewrite Hl, Hi. }
  assert (Hfree : occurs "{" (before +:+ toString v +:+ after) = false).
  { now rewrite !occurs_app, Hb, Hp, Hv. }
  rewrite render_unfold.
  rewrite processConditionals_no_match
    by (unfold ifRegex; rewrite test_plain_prefix by assumption; exact Hif).
  cbn [lift ret bindM].
  unfold processLoops.
  rewrite replaceM_no_match
    by (unfold eachRegex; rewrite test_plain_prefix by assumption; exact Heach).
  cbn [ret bindM].
  unfold processHelpers, replaceM, helperRegex.
  rewrite (scan_around _ _ _ _ _ [(2, args); (1, name)]); try assumption.
  - rewrite (glueM_app _ _ _ _ _ before after (toString v) [] [] []
               (glueM_texts _ _) Hcall (glueM_texts _ _)).
    cbn [ret bindM app].
    unfold processVariables. rewrite replace_no_match by now apply (test_lit_needs "{").
    reflexivity.
  - unfold helper_tag. discriminate.
Qed.

Lemma X12_helper_result_replaces_tag_witness :
  render (registerHelper "upper" (HFun (fun _ args => Ok (VStr (join "+" args))))
            (defaultHelpers 2025))
    ("<b>" +:+ helper_tag "upper" " a , b" +:+ "</b>") (VObj [])
  = Some ("<b>a+b</b>", []).
Proof.
  apply (X12_helper_result_replaces_tag _ (VObj []) "<b>" "upper" " a , b" "</b>"
           (HFun (fun _ args => Ok (VStr (join "+" args)))) (VStr "a+b"));
    try reflexivity; discriminate.
Defined.
